(** * Agent Skills flow engine: the interpreter core, embedded and verified

    Shallow embedding of [agent_skills/models.py], [agent_skills/executors/base.py],
    [agent_skills/registry.py] (lookup, listing and registration) and
    [agent_skills/engine.py], with two pure helpers of the executors:
    [extract_location_hint] of [executors/function_executor.py] and
    [_parse_organic_results] of [executors/web_search_executor.py].

    Conventions of the embedding.
    - A Python [str] is a [string]; each character stands for one code point
      in the range 0..255.
    - A Python value of type [Any] is a [value]: the JSON-like fragment
      (None, bool, int, str, list, dict with string keys).  Floats and
      arbitrary objects are outside the model.
    - A Python [dict] whose iteration order is observable (payloads, step
      results, the running context) is an association list kept duplicate-free
      by [dict_set]; the registry tables and the executor cache, which are
      only ever looked up by key, are [gmap]s.
    - Exceptions are explicit: a function that can raise returns [exn + A].
    - The capability implementations ([_execute], [_mock_execute]) are
      external collaborators; they are section variables acting on an abstract
      world state [W].
    - Wall-clock measurements ([latency_ms], [total_latency_ms]) and logging
      are not represented; a flow invocation is followed on its own, without
      interleaving with other invocations on the same engine. *)

From Stdlib Require Import String Ascii ZArith List Bool Lia.
From stdpp Require Import base option strings gmap pretty.

Import ListNotations.
Local Open Scope string_scope.

(** ** Python string primitives *)

Module Py.

(** [s[n:]] *)
Fixpoint drop (n : nat) (s : string) : string :=
  match n, s with
  | O, _ => s
  | S _, EmptyString => EmptyString
  | S k, String _ s' => drop k s'
  end.

(** [s[:-1]] *)
Fixpoint drop_last (s : string) : string :=
  match s with
  | EmptyString => EmptyString
  | String a s' =>
      match s' with
      | EmptyString => EmptyString
      | String _ _ => String a (drop_last s')
      end
  end.

(** [s.startswith(p)] *)
Definition startswith (s p : string) : bool := String.prefix p s.

(** [s.endswith(p)]: some suffix of [s] is [p]. *)
Fixpoint endswith (s p : string) : bool :=
  String.eqb s p ||
  match s with
  | EmptyString => false
  | String _ s' => endswith s' p
  end.

(** [p in s] on strings: [p] occurs at some position of [s]. *)
Fixpoint contains (p s : string) : bool :=
  String.prefix p s ||
  match s with
  | EmptyString => false
  | String _ s' => contains p s'
  end.

(** [s.partition(sep)] without the separator: the text before and after
    the first occurrence of [sep], when there is one. *)
Fixpoint partition (sep s : string) : option (string * string) :=
  if String.prefix sep s then Some (EmptyString, drop (String.length sep) s)
  else
    match s with
    | EmptyString => None
    | String a s' =>
        match partition sep s' with
        | Some (l, r) => Some (String a l, r)
        | None => None
        end
    end.

(** [s.split(sep)[0]] *)
Definition split_head (sep s : string) : string :=
  match partition sep s with
  | Some (l, _) => l
  | None => s
  end.

(** [s.split(c)] for a one-character separator. *)
Fixpoint split_char (c : ascii) (s : string) : list string :=
  match s with
  | EmptyString => [EmptyString]
  | String a s' =>
      if Ascii.eqb a c then EmptyString :: split_char c s'
      else
        match split_char c s' with
        | h :: t => String a h :: t
        | [] => [String a EmptyString]
        end
  end.

(** [str.isspace] on one code point below 256. *)
Definition is_space (a : ascii) : bool :=
  let n := nat_of_ascii a in
  (((9 <=? n) && (n <=? 13)) || ((28 <=? n) && (n <=? 32))
   || (n =? 133) || (n =? 160))%nat.

Fixpoint lstrip (f : ascii -> bool) (s : string) : string :=
  match s with
  | EmptyString => EmptyString
  | String a s' => if f a then lstrip f s' else s
  end.

Fixpoint rstrip (f : ascii -> bool) (s : string) : string :=
  match s with
  | EmptyString => EmptyString
  | String a s' =>
      let r := rstrip f s' in
      match r with
      | EmptyString => if f a then EmptyString else String a EmptyString
      | String _ _ => String a r
      end
  end.

(** [s.strip()] *)
Definition strip (s : string) : string := rstrip is_space (lstrip is_space s).

(** [s.strip(chars)] for a one-character [chars]. *)
Definition strip_char (c : ascii) (s : string) : string :=
  rstrip (Ascii.eqb c) (lstrip (Ascii.eqb c) s).

(** [str.lower] on one code point below 256. *)
Definition lower_char (a : ascii) : ascii :=
  let n := nat_of_ascii a in
  if (((65 <=? n) && (n <=? 90))
      || ((192 <=? n) && (n <=? 222) && negb (n =? 215)))%nat
  then ascii_of_nat (n + 32) else a.

Fixpoint lower (s : string) : string :=
  match s with
  | EmptyString => EmptyString
  | String a s' => String (lower_char a) (lower s')
  end.

(** [bool(s)] *)
Definition truthy_str (s : string) : bool :=
  match s with
  | EmptyString => false
  | String _ _ => true
  end.

(** [sep.join(l)] *)
Fixpoint join (sep : string) (l : list string) : string :=
  match l with
  | [] => EmptyString
  | [x] => x
  | x :: t => x ++ sep ++ join sep t
  end.

End Py.

(** ** Python values *)

#[warnings="-register-all"]
Inductive value : Type :=
| VNone
| VBool (b : bool)
| VInt (z : Z)
| VStr (s : string)
| VList (l : list value)
| VDict (d : list (string * value)).

(** A [Dict[str, Any]]. *)
Abbreviation dict := (list (string * value)).

Section OrderedDict.
Context {A : Type}.

(** [k in d] *)
Fixpoint dict_mem (k : string) (d : list (string * A)) : bool :=
  match d with
  | [] => false
  | (k', _) :: t => String.eqb k k' || dict_mem k t
  end.

(** [d.get(k)]; [None] when the key is absent. *)
Fixpoint dict_get (k : string) (d : list (string * A)) : option A :=
  match d with
  | [] => None
  | (k', v) :: t => if String.eqb k k' then Some v else dict_get k t
  end.

(** [d[k] = v]: an existing key keeps its position, a new key goes last. *)
Fixpoint dict_set (k : string) (v : A) (d : list (string * A))
  : list (string * A) :=
  match d with
  | [] => [(k, v)]
  | (k', v') :: t =>
      if String.eqb k k' then (k, v) :: t else (k', v') :: dict_set k v t
  end.
End OrderedDict.

(** [bool(v)] *)
Definition truthy (v : value) : bool :=
  match v with
  | VNone => false
  | VBool b => b
  | VInt z => negb (Z.eqb z 0)
  | VStr s => Py.truthy_str s
  | VList l => match l with [] => false | _ :: _ => true end
  | VDict d => match d with [] => false | _ :: _ => true end
  end.

(** [repr] of a string: single quotes unless the text has a single quote and
    no double quote; backslash, the quote, and non-printable code points are
    escaped. *)
Definition hex_digit (n : nat) : ascii :=
  ascii_of_nat (if (n <? 10)%nat then 48 + n else 87 + n).

Definition non_printable (a : ascii) : bool :=
  let n := nat_of_ascii a in
  ((n <? 32) || ((127 <=? n) && (n <=? 160)) || (n =? 173))%nat.

Definition repr_char (q : ascii) (a : ascii) : string :=
  if Ascii.eqb a "\" then "\\"
  else if Ascii.eqb a q then String "\" (String q EmptyString)
  else if Ascii.eqb a "010" then "\n"
  else if Ascii.eqb a "013" then "\r"
  else if Ascii.eqb a "009" then "\t"
  else if non_printable a then
    let n := nat_of_ascii a in
    String "\" (String "x" (String (hex_digit (n / 16))
                              (String (hex_digit (n mod 16)) EmptyString)))
  else String a EmptyString.

Fixpoint repr_body (q : ascii) (s : string) : string :=
  match s with
  | EmptyString => EmptyString
  | String a s' => repr_char q a ++ repr_body q s'
  end.

Definition dquote : ascii := "034"%char.
Definition squote : ascii := "039"%char.

Definition repr_str (s : string) : string :=
  let q : ascii :=
    if Py.contains (String squote EmptyString) s
       && negb (Py.contains (String dquote EmptyString) s)
    then dquote else squote in
  String q (repr_body q s ++ String q EmptyString).

Fixpoint py_repr (v : value) : string :=
  match v with
  | VNone => "None"
  | VBool true => "True"
  | VBool false => "False"
  | VInt z => pretty z
  | VStr s => repr_str s
  | VList l => "[" ++ Py.join ", " (map py_repr l) ++ "]"
  | VDict d =>
      "{" ++ Py.join ", "
               (map (fun kv => let '(k, x) := kv in
                               repr_str k ++ ": " ++ py_repr x) d) ++ "}"
  end.

(** [str(v)]; it is taken to succeed on every value of the model (the
    interpreter's limit on the decimal conversion of very large integers is
    not represented). *)
Definition py_str (v : value) : string :=
  match v with
  | VStr s => s
  | _ => py_repr v
  end.

(** ** Exceptions *)

Inductive exn : Type :=
| TypeError (msg : string)
| ValueError (msg : string)
| RecursionError.

(** ** models.py *)

Inductive SkillType : Type :=
| LLM_CALL | GENIE_QUERY | WEB_SEARCH | LAKEBASE_QUERY | FUNCTION
| PROMPT_REGISTRY.

Inductive SkillStatus : Type :=
| SUCCESS | FAILURE | SKIPPED | TIMEOUT | NO_DATA.

(** [status.value] *)
Definition status_value (s : SkillStatus) : string :=
  match s with
  | SUCCESS => "success"
  | FAILURE => "failure"
  | SKIPPED => "skipped"
  | TIMEOUT => "timeout"
  | NO_DATA => "no_data"
  end.

Definition SkillStatus_eqb (a b : SkillStatus) : bool :=
  match a, b with
  | SUCCESS, SUCCESS | FAILURE, FAILURE | SKIPPED, SKIPPED
  | TIMEOUT, TIMEOUT | NO_DATA, NO_DATA => true
  | _, _ => false
  end.

Inductive FallbackStrategy : Type :=
| PASSTHROUGH | DEFAULT_VALUE | SKIP.

(** [FallbackConfig]; an [Optional[Any]] field holds [VNone] for Python's
    [None]. *)
Record FallbackConfig : Type := {
  strategy : FallbackStrategy;
  passthrough_field : option string;
  default_value : value;
}.

(** The defaults of [FallbackConfig()]. *)
Definition FallbackConfig_default : FallbackConfig :=
  {| strategy := SKIP; passthrough_field := None; default_value := VNone |}.

(** [FieldSchema]; fields are prefixed [fs_]. *)
Record FieldSchema : Type := {
  fs_name : string;
  fs_type : string;
  fs_required : bool;
  fs_description : option string;
  fs_default : value;
}.

(** [SkillManifest]; [config] is the provider-specific blob, opaque here. *)
Record SkillManifest : Type := {
  skill_id : string;
  name : string;
  description : option string;
  version : Z;
  type : SkillType;
  config : value;
  input_schema : list FieldSchema;
  output_schema : list FieldSchema;
  fallback : FallbackConfig;
  tags : list string;
  mock_enabled : bool;
}.

(** [StepInput]; fields are prefixed [si_]. *)
Record StepInput : Type := {
  si_field : string;
  si_value : value;
  si_reference : option string;
}.

(** [FlowStep]; [skill] and [id] of the source are [step_skill] and
    [step_ident]. *)
Record FlowStep : Type := {
  step_skill : string;
  step_ident : string;
  inputs : list StepInput;
  condition : option string;
  parallel_with : option (list string);
}.

(** [ResponseMapping]; fields are prefixed [rm_]. *)
Record ResponseMapping : Type := {
  rm_field : string;
  rm_reference : option string;
  rm_default : value;
}.

Record DisplayConfig : Type := {
  dc_type : string;
  show_answer : bool;
  results_format : string;
  show_sources : bool;
  show_rewritten_query : bool;
  show_follow_up : bool;
}.

(** [FlowDefinition]; fields are prefixed [fd_] where they clash. *)
Record FlowDefinition : Type := {
  flow_id : string;
  fd_name : string;
  fd_description : option string;
  fd_version : Z;
  trigger : option string;
  steps : list FlowStep;
  response : list ResponseMapping;
  display : DisplayConfig;
  fd_tags : list string;
}.

(** [SkillResult]; fields are prefixed [sr_].  [sr_output] is a mutable
    attribute in the source; the engine's one assignment to it is
    [set_output]. *)
Record SkillResult : Type := {
  sr_skill_id : string;
  sr_step_id : string;
  sr_status : SkillStatus;
  sr_output : dict;
  sr_error : option string;
  sr_metadata : dict;
}.

Definition set_output (r : SkillResult) (o : dict) : SkillResult :=
  {| sr_skill_id := sr_skill_id r; sr_step_id := sr_step_id r;
     sr_status := sr_status r; sr_output := o; sr_error := sr_error r;
     sr_metadata := sr_metadata r |}.

(** [FlowResult]; fields are prefixed [fr_]. *)
Record FlowResult : Type := {
  fr_flow_id : string;
  fr_status : SkillStatus;
  fr_response : dict;
  fr_step_results : list (string * SkillResult);
  fr_display : option DisplayConfig;
  fr_error : option string;
}.

(** ** registry.py: the two tables and their lookups *)

Record SkillRegistry : Type := {
  _skills : gmap string SkillManifest;
  _flows : gmap string FlowDefinition;
}.

Definition get_skill (reg : SkillRegistry) (sid : string) : option SkillManifest :=
  _skills reg !! sid.

Definition get_flow (reg : SkillRegistry) (fid : string) : option FlowDefinition :=
  _flows reg !! fid.

Definition register_skill (reg : SkillRegistry) (m : SkillManifest) : SkillRegistry :=
  {| _skills := <[skill_id m := m]> (_skills reg); _flows := _flows reg |}.

Definition register_flow (reg : SkillRegistry) (f : FlowDefinition) : SkillRegistry :=
  {| _skills := _skills reg; _flows := <[flow_id f := f]> (_flows reg) |}.

(** ** executors/base.py *)

(** What a call of a capability implementation does: return an output map,
    raise [TimeoutError], or raise another [Exception]; the text is [str(e)].
    A hook that returns something other than a map makes the construction of
    the result raise inside the same [try] block: it counts as [Raised]. *)
Inductive Outcome : Type :=
| Returned (out : dict)
| RaisedTimeout (msg : string)
| Raised (msg : string).

(** [BaseExecutor._validate_inputs] over the manifest's input schema. *)
Fixpoint validate_fields (fields : list FieldSchema) (ins : dict) : option string :=
  match fields with
  | [] => None
  | field :: rest =>
      if fs_required field && negb (dict_mem (fs_name field) ins)
      then Some ("Missing required input: " ++ fs_name field)
      else validate_fields rest ins
  end.

Definition _validate_inputs (manifest : SkillManifest) (ins : dict) : option string :=
  validate_fields (input_schema manifest) ins.

(** Truthiness of an [Optional[str]]. *)
Definition truthy_opt_str (o : option string) : bool :=
  match o with
  | Some s => Py.truthy_str s
  | None => false
  end.

Definition is_none (v : value) : bool :=
  match v with VNone => true | _ => false end.

Definition is_dict (v : value) : bool :=
  match v with VDict _ => true | _ => false end.

Definition FallbackStrategy_eqb (a b : FallbackStrategy) : bool :=
  match a, b with
  | PASSTHROUGH, PASSTHROUGH | DEFAULT_VALUE, DEFAULT_VALUE | SKIP, SKIP => true
  | _, _ => false
  end.

(** An [Optional[str]] attribute as a Python value. *)
Definition opt_str_value (o : option string) : value :=
  match o with
  | Some s => VStr s
  | None => VNone
  end.

(** [BaseExecutor._handle_fallback] *)
Definition _handle_fallback (manifest : SkillManifest) (step_id error : string)
  : SkillResult :=
  let fb := fallback manifest in
  if FallbackStrategy_eqb (strategy fb) PASSTHROUGH
     && truthy_opt_str (passthrough_field fb)
  then
    {| sr_skill_id := skill_id manifest; sr_step_id := step_id;
       sr_status := FAILURE;
       sr_output := [("_fallback", VStr "passthrough");
                     ("_field", opt_str_value (passthrough_field fb))];
       sr_error := Some error;
       sr_metadata := [("fallback_strategy", VStr "passthrough")] |}
  else if FallbackStrategy_eqb (strategy fb) DEFAULT_VALUE
          && negb (is_none (default_value fb))
  then
    let default :=
      match default_value fb with
      | VDict d => d
      | v => [("result", v)]
      end in
    {| sr_skill_id := skill_id manifest; sr_step_id := step_id;
       sr_status := FAILURE; sr_output := default; sr_error := Some error;
       sr_metadata := [("fallback_strategy", VStr "default_value")] |}
  else
    {| sr_skill_id := skill_id manifest; sr_step_id := step_id;
       sr_status := SKIPPED; sr_output := []; sr_error := Some error;
       sr_metadata := [("fallback_strategy", VStr "skip")] |}.

(** [BaseExecutor._mock_execute], the default of the base class: every
    declared output field with its default. *)
Definition base_mock_execute (manifest : SkillManifest) : dict :=
  fold_left (fun acc field => dict_set (fs_name field) (fs_default field) acc)
            (output_schema manifest) [].

(** The concrete executor classes of [EXECUTOR_MAP]. *)
Inductive ExecutorClass : Type :=
| LLMCallExecutor | GenieQueryExecutor | WebSearchExecutor
| LakebaseQueryExecutor | FunctionExecutor | PromptRegistryExecutor.

(** An executor instance: its class and the manifest it was built with. *)
Record BaseExecutor : Type := {
  executor_class : ExecutorClass;
  manifest : SkillManifest;
}.

Section Executor.
(** [W] is the state of everything outside the interpreter; [_execute]
    and [_mock_execute] are the two hooks of an executor instance. *)
Context {W : Type}.
Variable _execute : BaseExecutor -> dict -> W -> Outcome * W.
Variable _mock_execute : BaseExecutor -> dict -> W -> Outcome * W.

(** The call inside the [try] block of [execute]: the mock hook when mock
    mode is on and the manifest allows it, the real one otherwise. *)
Definition dispatch (self : BaseExecutor) (ins : dict) (mock_mode : bool)
           (w : W) : Outcome * W :=
  if mock_mode && mock_enabled (manifest self)
  then _mock_execute self ins w
  else _execute self ins w.

(** [BaseExecutor.execute] *)
Definition execute (self : BaseExecutor) (ins : dict) (step_id : string)
           (mock_mode : bool) (w : W) : SkillResult * W :=
  let validation_error := _validate_inputs (manifest self) ins in
  if truthy_opt_str validation_error then
    (_handle_fallback (manifest self) step_id
       (match validation_error with Some e => e | None => EmptyString end), w)
  else
    let '(outcome, w') := dispatch self ins mock_mode w in
    match outcome with
    | Returned output =>
        ({| sr_skill_id := skill_id (manifest self); sr_step_id := step_id;
            sr_status := SUCCESS; sr_output := output; sr_error := None;
            sr_metadata := [] |}, w')
    | RaisedTimeout e =>
        (_handle_fallback (manifest self) step_id ("Timeout: " ++ e), w')
    | Raised e =>
        (_handle_fallback (manifest self) step_id e, w')
    end.
End Executor.

(** ** engine.py: reference resolution *)

(** Per-invocation context: [{"request": request, "steps": {...}}]. *)
Record Context : Type := {
  request : dict;
  ctx_steps : dict;
}.

(** The context as the dictionary the source traverses. *)
Definition context_dict (ctx : Context) : dict :=
  [("request", VDict (request ctx)); ("steps", VDict (ctx_steps ctx))].

(** [context["steps"][step_id] = {"output": output, "status": status}] *)
Definition record_step (ctx : Context) (sid : string) (output : dict)
           (status : string) : Context :=
  {| request := request ctx;
     ctx_steps :=
       dict_set sid (VDict [("output", VDict output); ("status", VStr status)])
                (ctx_steps ctx) |}.

(** The loop [for part in parts: if isinstance(current, dict) and part in
    current: current = current[part] else: return None]. *)
Fixpoint traverse (parts : list string) (current : value) : value :=
  match parts with
  | [] => current
  | part :: rest =>
      match current with
      | VDict d =>
          match dict_get part d with
          | Some v => traverse rest v
          | None => VNone
          end
      | _ => VNone
      end
  end.

(** The path of a reference: [reference[2:-1]] when it is wrapped in
    [${...}], the text itself otherwise. *)
Definition reference_path (reference : string) : string :=
  if Py.startswith reference "${" && Py.endswith reference "}"
  then Py.drop_last (Py.drop 2 reference)
  else reference.

(** [FlowEngine._resolve_reference] *)
Definition _resolve_reference (reference : string) (ctx : Context) : value :=
  let parts := Py.split_char "." (reference_path reference) in
  let first := hd EmptyString parts in
  if dict_mem first (context_dict ctx) then
    traverse parts (VDict (context_dict ctx))
  else
    match dict_get first (ctx_steps ctx) with
    | Some current => traverse (tl parts) current
    | None => VNone
    end.

(** One attempt of [VAR_PATTERN] (a dollar sign, an opening brace, one or
    more characters other than the closing brace, a closing brace) at the
    start of the text: the captured group, when the pattern matches. *)
Fixpoint scan_body (s : string) : option string :=
  match s with
  | EmptyString => None
  | String a s' =>
      if Ascii.eqb a "}" then Some EmptyString
      else option_map (String a) (scan_body s')
  end.

Definition match_var (text : string) : option string :=
  match text with
  | String "$" (String "{" rest) =>
      match scan_body rest with
      | Some body => if Py.truthy_str body then Some body else None
      | None => None
      end
  | _ => None
  end.

(** [VAR_PATTERN.sub(replace_match, text)]: matches are looked for left to
    right, a match is replaced and the scan goes on behind it; [skip] is the
    number of characters of the current match still to be passed over. *)
Fixpoint sub_from (repl : string -> string) (skip : nat) (text : string) : string :=
  match text with
  | EmptyString => EmptyString
  | String a rest =>
      match skip with
      | S k => sub_from repl k rest
      | O =>
          match match_var text with
          | Some body =>
              repl ("${" ++ body ++ "}") ++
              sub_from repl (String.length body + 2) rest
          | None => String a (sub_from repl 0 rest)
          end
      end
  end.

(** [replace_match]: the string form of the resolved value, the token itself
    when it resolves to [None]. *)
Definition replace_match (ctx : Context) (ref : string) : string :=
  let v := _resolve_reference ref ctx in
  if negb (is_none v) then py_str v else ref.

(** [FlowEngine._resolve_string_vars] *)
Definition _resolve_string_vars (text : string) (ctx : Context) : string :=
  sub_from (replace_match ctx) 0 text.


(** ** engine.py: condition evaluation *)

(** [except Exception: return False] *)
Definition catch_all (r : exn + bool) : bool :=
  match r with
  | inl _ => false
  | inr b => b
  end.

(** Whitespace, then double quotes, then single quotes are stripped from both
    ends: three [strip] calls in a row. *)
Definition unquote (s : string) : string :=
  Py.strip_char squote (Py.strip_char dquote (Py.strip s)).

(** [len(v) == 0] for a list or dict, [not v] otherwise. *)
Definition empty_test (actual_val : value) : bool :=
  match actual_val with
  | VList l => Nat.eqb (List.length l) 0
  | VDict d => Nat.eqb (List.length d) 0
  | v => negb (truthy v)
  end.

(** [len(v) > 0] for a list or dict, [bool(v)] otherwise. *)
Definition not_empty_test (actual_val : value) : bool :=
  match actual_val with
  | VList l => Nat.ltb 0 (List.length l)
  | VDict d => Nat.ltb 0 (List.length d)
  | v => truthy v
  end.

(** One comparison of the loop [for op in ["!=", "=="]], once [op in
    resolved] holds; unpacking a split without a second part raises. *)
Definition compare_op (op : string) (resolved : string) : exn + bool :=
  match Py.partition op resolved with
  | Some (lhs, rhs) =>
      if String.eqb op "=="
      then inr (String.eqb (unquote lhs) (unquote rhs))
      else inr (negb (String.eqb (unquote lhs) (unquote rhs)))
  | None => inl (ValueError "not enough values to unpack")
  end.

(** The [try] block of [FlowEngine._evaluate_condition].  [depth] bounds the
    nesting of calls the block may still make: with none left its first call
    raises [RecursionError]; the recursive evaluation of a [not] prefix runs
    one level deeper, under its own [try].  The local [field_ref] of the two
    empty-check branches is computed and never read; it is left out. *)
Fixpoint condition_body (depth : nat) (condition : string) (ctx : Context)
  : exn + bool :=
  match depth with
  | O => inl RecursionError
  | S depth' =>
      let resolved := _resolve_string_vars condition ctx in
      if Py.contains "is empty" resolved then
        let actual_val :=
          _resolve_reference (Py.strip (Py.split_head "is empty" condition)) ctx in
        inr (empty_test actual_val)
      else if Py.contains "is not empty" resolved then
        let actual_val :=
          _resolve_reference (Py.strip (Py.split_head "is not empty" condition)) ctx in
        inr (not_empty_test actual_val)
      else if Py.contains "!=" resolved then compare_op "!=" resolved
      else if Py.contains "==" resolved then compare_op "==" resolved
      else if Py.startswith (Py.strip resolved) "not " then
        let inner := Py.drop 4 (Py.strip resolved) in
        inr (negb (catch_all (condition_body depth' inner ctx)))
      else inr (Py.truthy_str resolved)
  end.

(** [FlowEngine._evaluate_condition] *)
Definition _evaluate_condition (depth : nat) (condition : string) (ctx : Context)
  : bool :=
  catch_all (condition_body depth condition ctx).

(** ** engine.py: inputs and response *)

(** One iteration of the loop of [_resolve_step_inputs]. *)
Definition resolve_input (ctx : Context) (resolved : dict) (step_input : StepInput)
  : dict :=
  let value0 :=
    match si_reference step_input with
    | Some r => if Py.truthy_str r then _resolve_reference r ctx
                else si_value step_input
    | None => si_value step_input
    end in
  let value1 :=
    match value0 with
    | VStr s => VStr (_resolve_string_vars s ctx)
    | v => v
    end in
  dict_set (si_field step_input) value1 resolved.

(** [FlowEngine._resolve_step_inputs] *)
Definition _resolve_step_inputs (step : FlowStep) (ctx : Context) : dict :=
  fold_left (resolve_input ctx) (inputs step) [].

(** One iteration of the loop of [_build_response]. *)
Definition map_response (ctx : Context) (resp : dict) (mapping : ResponseMapping)
  : dict :=
  match rm_reference mapping with
  | Some r =>
      if Py.truthy_str r then
        let v := _resolve_reference r ctx in
        dict_set (rm_field mapping)
                 (if negb (is_none v) then v else rm_default mapping) resp
      else dict_set (rm_field mapping) (rm_default mapping) resp
  | None => dict_set (rm_field mapping) (rm_default mapping) resp
  end.

(** [FlowEngine._build_response] *)
Definition _build_response (flow : FlowDefinition) (ctx : Context) : dict :=
  fold_left (map_response ctx) (response flow) [].

(** ** engine.py: executors and the orchestration loop *)

(** [EXECUTOR_MAP.get(skill_type)] *)
Definition EXECUTOR_MAP (t : SkillType) : option ExecutorClass :=
  match t with
  | LLM_CALL => Some LLMCallExecutor
  | GENIE_QUERY => Some GenieQueryExecutor
  | WEB_SEARCH => Some WebSearchExecutor
  | LAKEBASE_QUERY => Some LakebaseQueryExecutor
  | FUNCTION => Some FunctionExecutor
  | PROMPT_REGISTRY => Some PromptRegistryExecutor
  end.

(** [FlowEngine]: the registry handle and the executor cache. *)
Record FlowEngine : Type := {
  registry : SkillRegistry;
  _executor_cache : gmap string BaseExecutor;
}.

(** [FlowEngine._get_executor], on the cache. *)
Definition _get_executor (cache : gmap string BaseExecutor) (skill : SkillManifest)
  : exn + (BaseExecutor * gmap string BaseExecutor) :=
  match cache !! skill_id skill with
  | Some executor => inr (executor, cache)
  | None =>
      match EXECUTOR_MAP (type skill) with
      | None => inl (ValueError "No executor for skill type")
      | Some executor_class =>
          let executor :=
            {| executor_class := executor_class; manifest := skill |} in
          inr (executor, <[skill_id skill := executor]> cache)
      end
  end.

(** [k in d] for a key that is an arbitrary value: lists and dicts are not
    hashable. *)
Definition value_in_dict (k : value) (d : dict) : exn + bool :=
  match k with
  | VStr s => inr (dict_mem s d)
  | VList _ => inl (TypeError "unhashable type: 'list'")
  | VDict _ => inl (TypeError "unhashable type: 'dict'")
  | _ => inr false
  end.

(** [d[k]] for a key already known to be in [d]. *)
Definition value_index (k : value) (d : dict) : value :=
  match k with
  | VStr s => match dict_get s d with Some v => v | None => VNone end
  | _ => VNone
  end.

(** [skill.output_schema[0].name if skill.output_schema else "result"] *)
Definition first_output_field (skill : SkillManifest) : string :=
  match output_schema skill with
  | f :: _ => fs_name f
  | [] => "result"
  end.

(** The block "Handle passthrough fallback" of [execute_flow]. *)
Definition passthrough_rewrite (skill : SkillManifest) (resolved_inputs : dict)
           (result : SkillResult) : exn + SkillResult :=
  if SkillStatus_eqb (sr_status result) FAILURE
     && match dict_get "_fallback" (sr_output result) with
        | Some (VStr s) => String.eqb s "passthrough"
        | _ => false
        end
  then
    let passthrough_field :=
      match dict_get "_field" (sr_output result) with
      | Some v => v
      | None => VStr EmptyString
      end in
    match value_in_dict passthrough_field resolved_inputs with
    | inl e => inl e
    | inr true =>
        let first_output := first_output_field skill in
        inr (set_output result
               [(first_output, value_index passthrough_field resolved_inputs)])
    | inr false => inr result
    end
  else inr result.

Section Engine.
Context {W : Type}.
Variable _execute : BaseExecutor -> dict -> W -> Outcome * W.
Variable _mock_execute : BaseExecutor -> dict -> W -> Outcome * W.

(** What the loop of [execute_flow] carries from step to step. *)
Record RunState : Type := {
  rs_context : Context;
  rs_step_results : list (string * SkillResult);
  rs_cache : gmap string BaseExecutor;
  rs_world : W;
}.

(** The branch of the loop taken when the condition is not met. *)
Definition skip_step (st : RunState) (step : FlowStep) : RunState :=
  let skip_result :=
    {| sr_skill_id := step_skill step; sr_step_id := step_ident step;
       sr_status := SKIPPED; sr_output := []; sr_error := None;
       sr_metadata := [("reason", VStr "condition_not_met")] |} in
  {| rs_context := record_step (rs_context st) (step_ident step) [] "skipped";
     rs_step_results := dict_set (step_ident step) skip_result (rs_step_results st);
     rs_cache := rs_cache st;
     rs_world := rs_world st |}.

(** The body of the loop [for step in flow.steps]. *)
Definition run_step (reg : SkillRegistry) (mock_mode : bool) (depth : nat)
           (st : RunState) (step : FlowStep) : exn + RunState :=
  let context := rs_context st in
  if match condition step with
     | Some c => Py.truthy_str c && negb (_evaluate_condition depth c context)
     | None => false
     end
  then inr (skip_step st step)
  else
    let resolved_inputs := _resolve_step_inputs step context in
    match get_skill reg (step_skill step) with
    | None =>
        let err_result :=
          {| sr_skill_id := step_skill step; sr_step_id := step_ident step;
             sr_status := FAILURE; sr_output := [];
             sr_error := Some ("Skill not found: " ++ step_skill step);
             sr_metadata := [] |} in
        inr {| rs_context := record_step context (step_ident step) [] "failure";
               rs_step_results :=
                 dict_set (step_ident step) err_result (rs_step_results st);
               rs_cache := rs_cache st;
               rs_world := rs_world st |}
    | Some skill =>
        match _get_executor (rs_cache st) skill with
        | inl e => inl e
        | inr (executor, cache') =>
            let '(result0, w') :=
              execute _execute _mock_execute executor resolved_inputs
                      (step_ident step) mock_mode (rs_world st) in
            match passthrough_rewrite skill resolved_inputs result0 with
            | inl e => inl e
            | inr result =>
                inr {| rs_context :=
                         record_step context (step_ident step)
                                     (sr_output result)
                                     (status_value (sr_status result));
                       rs_step_results :=
                         dict_set (step_ident step) result (rs_step_results st);
                       rs_cache := cache';
                       rs_world := w' |}
            end
        end
    end.

(** The whole loop. *)
Fixpoint run_steps (reg : SkillRegistry) (mock_mode : bool) (depth : nat)
         (st : RunState) (todo : list FlowStep) : exn + RunState :=
  match todo with
  | [] => inr st
  | step :: rest =>
      match run_step reg mock_mode depth st step with
      | inl e => inl e
      | inr st' => run_steps reg mock_mode depth st' rest
      end
  end.

(** [FlowEngine.execute_flow].  [getenv_mock] is the value of the
    environment variable APP_MOCK_MODE, if set; [depth] is the call depth
    left for condition evaluation.  The result comes with the engine (its
    cache may have grown) and the world. *)
Definition execute_flow (self : FlowEngine) (getenv_mock : option string)
           (depth : nat) (flow_id : string) (req : dict)
           (mock_mode : option bool) (w : W)
  : exn + (FlowResult * FlowEngine * W) :=
  let mock_mode :=
    match mock_mode with
    | Some b => b
    | None =>
        String.eqb
          (Py.lower (match getenv_mock with Some v => v | None => "false" end))
          "true"
    end in
  match get_flow (registry self) flow_id with
  | None =>
      inr ({| fr_flow_id := flow_id; fr_status := FAILURE; fr_response := [];
              fr_step_results := []; fr_display := None;
              fr_error := Some ("Flow not found: " ++ flow_id) |}, self, w)
  | Some flow =>
      let st0 :=
        {| rs_context := {| request := req; ctx_steps := [] |};
           rs_step_results := []; rs_cache := _executor_cache self;
           rs_world := w |} in
      match run_steps (registry self) mock_mode depth st0 (steps flow) with
      | inl e => inl e
      | inr st =>
          let resp := _build_response flow (rs_context st) in
          inr ({| fr_flow_id := flow_id; fr_status := SUCCESS;
                  fr_response := resp;
                  fr_step_results := rs_step_results st;
                  fr_display := Some (display flow); fr_error := None |},
               {| registry := registry self; _executor_cache := rs_cache st |},
               rs_world st)
      end
  end.
End Engine.

(** ** Vocabulary of the statements *)

(** [no_char c s]: the character [c] does not occur in [s]. *)
Fixpoint no_char (c : ascii) (s : string) : bool :=
  match s with
  | EmptyString => true
  | String a s' => negb (Ascii.eqb a c) && no_char c s'
  end.

(** The reference token that addresses [path]. *)
Definition token (path : string) : string := "${" ++ path ++ "}".

(** The first required field of a schema that the inputs lack. *)
Fixpoint first_missing (fields : list FieldSchema) (ins : dict) : option FieldSchema :=
  match fields with
  | [] => None
  | field :: rest =>
      if fs_required field && negb (dict_mem (fs_name field) ins)
      then Some field
      else first_missing rest ins
  end.

(** The status a fallback configuration gives to a failed invocation. *)
Definition fallback_status (fb : FallbackConfig) : SkillStatus :=
  match strategy fb with
  | PASSTHROUGH => if truthy_opt_str (passthrough_field fb) then FAILURE else SKIPPED
  | DEFAULT_VALUE => if is_none (default_value fb) then SKIPPED else FAILURE
  | SKIP => SKIPPED
  end.

(** The marker map of the first phase of the passthrough fallback. *)
Definition passthrough_marker (F : string) : dict :=
  [("_fallback", VStr "passthrough"); ("_field", VStr F)].

(** An invocation fails when validation finds a required input missing or
    the dispatched hook raises. *)
Definition invocation_fails {W : Type}
           (_execute _mock_execute : BaseExecutor -> dict -> W -> Outcome * W)
           (self : BaseExecutor) (ins : dict) (mock_mode : bool) (w : W) : bool :=
  truthy_opt_str (_validate_inputs (manifest self) ins)
  || match fst (dispatch _execute _mock_execute self ins mock_mode w) with
     | Returned _ => false
     | RaisedTimeout _ | Raised _ => true
     end.

(** Hooks that count their calls: the world is the pair of the numbers of
    real and of mock calls. *)
Definition counting_execute (out : Outcome) (_ : BaseExecutor) (_ : dict)
           (w : nat * nat) : Outcome * (nat * nat) :=
  (out, (S (fst w), snd w)).

Definition counting_mock_execute (out : Outcome) (_ : BaseExecutor) (_ : dict)
           (w : nat * nat) : Outcome * (nat * nat) :=
  (out, (fst w, S (snd w))).

(** The guard of the loop body: the step runs when it has no condition (or
    an empty one) or its condition evaluates to true. *)
Definition condition_met (depth : nat) (step : FlowStep) (ctx : Context) : bool :=
  match condition step with
  | Some c => negb (Py.truthy_str c) || _evaluate_condition depth c ctx
  | None => true
  end.

(** What [context["steps"]] holds for a step. *)
Definition step_record (output : dict) (status : string) : value :=
  VDict [("output", VDict output); ("status", VStr status)].




(** No step of the list has the id [sid]. *)
Definition id_unused (sid : string) (todo : list FlowStep) : Prop :=
  Forall (fun s => step_ident s <> sid) todo.

(** ** Sample data, after the helpers of the test suite *)

(** [make_manifest] of [tests/test_executors.py]. *)
Definition make_manifest (sid : string) (t : SkillType)
           (ins outs : list FieldSchema) (fb : FallbackConfig) : SkillManifest :=
  {| skill_id := sid; name := "Test " ++ sid; description := None; version := 1;
     type := t; config := VDict []; input_schema := ins; output_schema := outs;
     fallback := fb; tags := []; mock_enabled := true |}.

(** [FieldSchema(name=n)], all other attributes at their defaults. *)
Definition field_schema (n : string) : FieldSchema :=
  {| fs_name := n; fs_type := "string"; fs_required := true;
     fs_description := None; fs_default := VNone |}.

Definition function_executor (m : SkillManifest) : BaseExecutor :=
  {| executor_class := FunctionExecutor; manifest := m |}.

(** A manifest that requires the input [q]. *)
Definition requires_q (fb : FallbackConfig) : SkillManifest :=
  make_manifest "test_func" FUNCTION [field_schema "q"] [field_schema "answer"] fb.

(** A step that binds the input [field] to the request's message. *)
Definition step_on_message (field : string) (cond : option string) : FlowStep :=
  {| step_skill := "test_func"; step_ident := "step1";
     inputs := [{| si_field := field; si_value := VNone;
                   si_reference := Some "${request.message}" |}];
     condition := cond; parallel_with := None |}.

Definition passthrough_to (F : string) : FallbackConfig :=
  {| strategy := PASSTHROUGH; passthrough_field := Some F; default_value := VNone |}.

(** A registry with one skill. *)
Definition registry_of (m : SkillManifest) : SkillRegistry :=
  register_skill {| _skills := ∅; _flows := ∅ |} m.

(** The state at the start of a flow run on a fresh engine. *)
Definition start_state (req : dict) : @RunState (nat * nat) :=
  {| rs_context := {| request := req; ctx_steps := [] |};
     rs_step_results := []; rs_cache := ∅; rs_world := (0, 0) |}.

(** [DisplayConfig()] *)
Definition DisplayConfig_default : DisplayConfig :=
  {| dc_type := "inline"; show_answer := true; results_format := "cards";
     show_sources := true; show_rewritten_query := true; show_follow_up := false |}.

(** The flow "test_flow" over the given steps, with one response mapping. *)
Definition test_flow (todo : list FlowStep) : FlowDefinition :=
  {| flow_id := "test_flow"; fd_name := "Test Flow"; fd_description := None;
     fd_version := 1; trigger := None; steps := todo;
     response := [{| rm_field := "result";
                     rm_reference := Some "${step1.output.answer}";
                     rm_default := VNone |}];
     display := DisplayConfig_default; fd_tags := [] |}.

(** A fresh engine on a registry with one skill and one flow. *)
Definition engine_of (m : SkillManifest) (f : FlowDefinition) : FlowEngine :=
  {| registry := register_flow (registry_of m) f; _executor_cache := ∅ |}.

(** A default value that has the shape of the passthrough marker and names
    a list as its field. *)
Definition marker_shaped_default : FallbackConfig :=
  {| strategy := DEFAULT_VALUE; passthrough_field := None;
     default_value := VDict [("_fallback", VStr "passthrough");
                             ("_field", VList [VStr "q"])] |}.

(** ** More of the code: registry listings, environment references *)






(** [BaseExecutor._resolve_env_var]; [environ] is the process environment. *)
Definition _resolve_env_var (environ : gmap string string) (value : string)
  : string :=
  if Py.truthy_str value && Py.startswith value "${" && Py.endswith value "}"
  then
    let env_name := Py.drop_last (Py.drop 2 value) in
    match environ !! env_name with
    | Some v => v
    | None => value
    end
  else value.

(** The value one input binding contributes in [_resolve_step_inputs]. *)
Definition bound_value (ctx : Context) (step_input : StepInput) : value :=
  let value0 :=
    match si_reference step_input with
    | Some r => if Py.truthy_str r then _resolve_reference r ctx
                else si_value step_input
    | None => si_value step_input
    end in
  match value0 with
  | VStr s => VStr (_resolve_string_vars s ctx)
  | v => v
  end.

(** The value one response mapping contributes in [_build_response]. *)
Definition mapped_value (ctx : Context) (mapping : ResponseMapping) : value :=
  match rm_reference mapping with
  | Some r =>
      if Py.truthy_str r then
        let v := _resolve_reference r ctx in
        if negb (is_none v) then v else rm_default mapping
      else rm_default mapping
  | None => rm_default mapping
  end.

(** The context entry that goes with a step result. *)
Definition record_of (r : SkillResult) : value :=
  step_record (sr_output r) (status_value (sr_status r)).

(** The context mirrors the step results: the same step ids, and for each
    the output and the status of its result. *)
Definition mirrored (ctx : Context) (results : list (string * SkillResult)) : Prop :=
  forall sid, dict_get sid (ctx_steps ctx) = option_map record_of (dict_get sid results).

(** The keys of a dictionary, in order. *)
Definition dict_keys {A : Type} (d : list (string * A)) : list string := map fst d.

(** The value of the last entry for the key [k] in a list of bindings read
    through [key] and [val]. *)
Fixpoint last_binding {X A : Type} (key : X -> string) (val : X -> A)
         (k : string) (l : list X) : option A :=
  match l with
  | [] => None
  | x :: rest =>
      match last_binding key val k rest with
      | Some v => Some v
      | None => if String.eqb k (key x) then Some (val x) else None
      end
  end.

(** A flow with no steps and the given response mappings. *)
Definition test_flow_with (mappings : list ResponseMapping) : FlowDefinition :=
  {| flow_id := "test_flow"; fd_name := "Test Flow"; fd_description := None;
     fd_version := 1; trigger := None; steps := [];
     response := mappings; display := DisplayConfig_default; fd_tags := [] |}.

(** Hooks that count their calls and whose outcome depends on the executor
    and the inputs. *)
Definition counted_execute (f : BaseExecutor -> dict -> Outcome)
           (ex : BaseExecutor) (ins : dict) (w : nat * nat)
  : Outcome * (nat * nat) :=
  (f ex ins, (S (fst w), snd w)).

Definition counted_mock_execute (f : BaseExecutor -> dict -> Outcome)
           (ex : BaseExecutor) (ins : dict) (w : nat * nat)
  : Outcome * (nat * nat) :=
  (f ex ins, (fst w, S (snd w))).


(** The sample flow of one step and a fresh engine that knows it and the
    skill "test_func" with a passthrough fallback on its input. *)
Definition sample_flow : FlowDefinition := test_flow [step_on_message "q" None].

Definition sample_engine : FlowEngine :=
  engine_of (requires_q (passthrough_to "q")) sample_flow.

(** ** executors/function_executor.py: the location hint *)

Definition SUPPORTED_LOCATIONS : list string :=
  ["miami"; "lake tahoe"; "austin"; "san diego"; "boston";
   "fredericksburg"; "new york"; "los angeles"; "san francisco";
   "seattle"; "denver"; "chicago"; "orlando"; "las vegas"].

(** [str.title] on ASCII text, which is all it is applied to here: a letter
    that follows a letter is lowered, any other letter is raised. *)
Definition is_letter (a : ascii) : bool :=
  let n := nat_of_ascii a in
  (((65 <=? n) && (n <=? 90)) || ((97 <=? n) && (n <=? 122)))%nat.

Definition upper_char (a : ascii) : ascii :=
  let n := nat_of_ascii a in
  if ((97 <=? n) && (n <=? 122))%nat then ascii_of_nat (n - 32) else a.

Fixpoint title_from (previous_is_cased : bool) (s : string) : string :=
  match s with
  | EmptyString => EmptyString
  | String a s' =>
      String (if previous_is_cased then Py.lower_char a else upper_char a)
             (title_from (is_letter a) s')
  end.

Definition title (s : string) : string := title_from false s.

(** The loop [for loc in SUPPORTED_LOCATIONS] of [extract_location_hint]. *)
Fixpoint location_loop (locs : list string) (query_lower : string) : dict :=
  match locs with
  | [] => [("location", VNone)]
  | loc :: rest =>
      if Py.contains loc query_lower then [("location", VStr (title loc))]
      else location_loop rest query_lower
  end.

(** [extract_location_hint] *)
Definition extract_location_hint (query_text : string) : dict :=
  let query_lower := Py.lower query_text in
  location_loop SUPPORTED_LOCATIONS query_lower.

(** ** executors/web_search_executor.py: parsing of the organic results *)

(** [l[:n]] for an integer [n]; a negative [n] counts from the end. *)
Definition slice_to {A : Type} (n : Z) (l : list A) : list A :=
  if (0 <=? n)%Z then firstn (Z.to_nat n) l
  else firstn (List.length l - Z.to_nat (- n)) l.

(** [d.get(k, default)] *)
Definition get_default (k : string) (default : value) (d : dict) : value :=
  match dict_get k d with
  | Some v => v
  | None => default
  end.

(** The entry appended to [links] for a result. *)
Definition link_of (result : dict) : value :=
  VDict [("title", get_default "title" (VStr EmptyString) result);
         ("url", get_default "link" (VStr EmptyString) result);
         ("snippet", get_default "snippet" (VStr EmptyString) result)].

(** The body of the loop of [_parse_organic_results] on the two lists. *)
Definition parse_result (acc : list value * list value) (result : dict)
  : list value * list value :=
  let snippet := get_default "snippet" (VStr EmptyString) result in
  if truthy snippet
  then ((fst acc ++ [snippet])%list, (snd acc ++ [link_of result])%list)
  else acc.

(** [WebSearchExecutor._parse_organic_results] *)
Definition _parse_organic_results (results : list dict) (num_results : Z) : dict :=
  let acc := fold_left parse_result (slice_to num_results results) ([], []) in
  let status := if truthy (VList (fst acc)) then "ok" else "no_results" in
  [("snippets", VList (fst acc)); ("links", VList (snd acc));
   ("search_status", VStr status)].

(** * Facts about the string primitives *)

Module PyFacts.
Import Py.

Lemma app_cons (a : ascii) (s t : string) :
  String a s ++ t = String a (s ++ t).
Proof. reflexivity. Qed.

Lemma app_nil_l (t : string) : EmptyString ++ t = t.
Proof. reflexivity. Qed.

Lemma app_nil_r (s : string) : s ++ EmptyString = s.
Proof. induction s as [|a s IH]; [reflexivity|]. now rewrite app_cons, IH. Qed.

Lemma app_assoc (a b c : string) : (a ++ b) ++ c = a ++ (b ++ c).
Proof.
  induction a as [|x a IH]; [reflexivity|].
  now rewrite !app_cons, IH.
Qed.

Lemma length_app (a b : string) :
  String.length (a ++ b) = String.length a + String.length b.
Proof.
  induction a as [|x a IH]; [reflexivity|].
  rewrite app_cons. simpl. now rewrite IH.
Qed.

Lemma prefix_cons (a b : ascii) (p s : string) :
  String.prefix (String a p) (String b s) = Ascii.eqb a b && String.prefix p s.
Proof.
  simpl. destruct (ascii_dec a b) as [->|Hne].
  - now rewrite Ascii.eqb_refl.
  - apply Ascii.eqb_neq in Hne. now rewrite Hne.
Qed.

Lemma prefix_nil (s : string) : String.prefix EmptyString s = true.
Proof. now destruct s. Qed.

Lemma prefix_app (p w : string) : String.prefix p (p ++ w) = true.
Proof.
  induction p as [|a p IH]; [apply prefix_nil|].
  now rewrite app_cons, prefix_cons, Ascii.eqb_refl, IH.
Qed.

Lemma contains_cons (p : string) (a : ascii) (s : string) :
  contains p (String a s) = String.prefix p (String a s) || contains p s.
Proof. reflexivity. Qed.

Lemma contains_app_l (p a s : string) :
  contains p s = true -> contains p (a ++ s) = true.
Proof.
  intros H. induction a as [|x a IH]; [exact H|].
  rewrite app_cons, contains_cons, IH. apply orb_true_r.
Qed.

Lemma contains_prefix (p s : string) :
  String.prefix p s = true -> contains p s = true.
Proof. intros H. destruct s; simpl in *; rewrite H; reflexivity. Qed.

(** A pattern free of [c] that matches in front of [t ++ c ...] matches
    inside [t]. *)
Lemma prefix_before_char (c : ascii) (p t w : string) :
  no_char c p = true ->
  String.prefix p (t ++ String c w) = true ->
  String.prefix p t = true.
Proof.
  revert t. induction p as [|a p IH]; intros t Hp H.
  - apply prefix_nil.
  - simpl in Hp. apply andb_true_iff in Hp as [Ha Hp].
    destruct t as [|b t].
    + rewrite app_nil_l, prefix_cons in H.
      apply andb_true_iff in H as [H _].
      rewrite H in Ha. discriminate.
    + rewrite app_cons, prefix_cons in H.
      apply andb_true_iff in H as [Hab H].
      rewrite prefix_cons, Hab. simpl. now apply IH.
Qed.

Lemma prefix_head_mismatch (c : ascii) (a : ascii) (p w : string) :
  no_char c (String a p) = true ->
  String.prefix (String a p) (String c w) = false.
Proof.
  intros H. simpl in H. apply andb_true_iff in H as [H _].
  rewrite prefix_cons. apply negb_true_iff in H. now rewrite H.
Qed.

(** The first occurrence of a non-empty pattern free of [c] is not found
    in [t ++ c] when [t] has none: the search goes on behind [c]. *)
Lemma partition_through (c : ascii) (a : ascii) (p t rest : string) :
  no_char c (String a p) = true ->
  contains (String a p) t = false ->
  partition (String a p) (t ++ String c rest) =
    match partition (String a p) rest with
    | Some (l, r) => Some (t ++ String c l, r)
    | None => None
    end.
Proof.
  intros Hc. induction t as [|b t IH]; intros Ht.
  - rewrite app_nil_l.
    cbn [partition]. rewrite (prefix_head_mismatch c a p rest Hc).
    destruct (partition (String a p) rest) as [[l r]|]; reflexivity.
  - rewrite contains_cons in Ht. apply orb_false_iff in Ht as [Hpre Ht].
    rewrite app_cons. cbn [partition].
    destruct (String.prefix (String a p) (String b (t ++ String c rest))) eqn:E.
    + rewrite <- app_cons in E.
      apply (prefix_before_char c) in E; [congruence|exact Hc].
    + rewrite (IH Ht).
      destruct (partition (String a p) rest) as [[l r]|]; reflexivity.
Qed.

Lemma split_char_no_sep (c : ascii) (s : string) :
  no_char c s = true -> split_char c s = [s].
Proof.
  induction s as [|a s IH]; [reflexivity|].
  simpl. intros H. apply andb_true_iff in H as [Ha Hs].
  apply negb_true_iff in Ha. rewrite Ha, (IH Hs). reflexivity.
Qed.

Lemma endswith_app (s : string) (c : ascii) :
  endswith (s ++ String c EmptyString) (String c EmptyString) = true.
Proof.
  induction s as [|a s IH].
  - rewrite app_nil_l. cbn [endswith]. now rewrite String.eqb_refl.
  - rewrite app_cons. cbn [endswith]. rewrite IH. apply orb_true_r.
Qed.

Lemma drop_last_app (s : string) (c : ascii) :
  drop_last (s ++ String c EmptyString) = s.
Proof.
  induction s as [|a s IH]; [reflexivity|].
  rewrite app_cons. cbn [drop_last]. rewrite IH.
  destruct s; reflexivity.
Qed.

(** Stripping on the right removes one trailing strippable character that
    follows a character that stays. *)
Lemma rstrip_one (f : ascii -> bool) (t : string) (c sp : ascii) :
  f c = false -> f sp = true ->
  rstrip f (t ++ String c (String sp EmptyString)) = t ++ String c EmptyString.
Proof.
  intros Hc Hsp. induction t as [|a t IH].
  - rewrite !app_nil_l. simpl. now rewrite Hsp, Hc.
  - rewrite !app_cons. cbn [rstrip]. rewrite IH.
    destruct t; reflexivity.
Qed.

End PyFacts.

Example py_str_demo :
  py_str (VDict [("a", VList [VInt (-1); VStr "x"; VNone; VBool true])])
  = "{'a': [-1, 'x', None, True]}".
Proof. vm_compute. reflexivity. Qed.

(** * Facts about dictionaries *)

Section DictFacts.
Context {A : Type}.
Implicit Types (d : list (string * A)) (k : string).

Lemma classic_in (x : string) (l : list string) : In x l \/ ~ In x l.
Proof. destruct (in_dec string_dec x l); auto. Qed.

Lemma dict_get_mem k d : dict_mem k d = true <-> exists v, dict_get k d = Some v.
Proof.
  induction d as [|[k' v'] d IH]; simpl.
  - split; [discriminate|intros [v H]; discriminate].
  - destruct (String.eqb k k'); simpl; [|exact IH].
    split; [eauto|reflexivity].
Qed.

Lemma dict_get_not_mem k d : dict_mem k d = false -> dict_get k d = None.
Proof.
  intros H. destruct (dict_get k d) as [v|] eqn:E; [|reflexivity].
  assert (dict_mem k d = true) by (apply dict_get_mem; eauto). congruence.
Qed.

Lemma dict_get_set_eq k (v : A) d : dict_get k (dict_set k v d) = Some v.
Proof.
  induction d as [|[k' v'] d IH]; simpl.
  - now rewrite String.eqb_refl.
  - destruct (String.eqb k k') eqn:E; simpl.
    + now rewrite String.eqb_refl.
    + now rewrite E.
Qed.

Lemma dict_get_set_ne k k' (v : A) d :
  k <> k' -> dict_get k (dict_set k' v d) = dict_get k d.
Proof.
  intros Hne. induction d as [|[k0 v0] d IH]; simpl.
  - apply String.eqb_neq in Hne. now rewrite Hne.
  - destruct (String.eqb k' k0) eqn:E; simpl.
    + apply String.eqb_eq in E as <-.
      apply String.eqb_neq in Hne. now rewrite Hne.
    + now rewrite IH.
Qed.
Lemma dict_mem_set k k' (v : A) d :
  dict_mem k (dict_set k' v d) = String.eqb k k' || dict_mem k d.
Proof.
  induction d as [|[k0 v0] d IH]; simpl.
  - now rewrite orb_false_r.
  - destruct (String.eqb k' k0) eqn:E; simpl.
    + apply String.eqb_eq in E as <-.
      destruct (String.eqb k k'); reflexivity.
    + rewrite IH. destruct (String.eqb k k0), (String.eqb k k'); reflexivity.
Qed.

Lemma dict_keys_set_fresh k (v : A) d :
  dict_mem k d = false -> dict_keys (dict_set k v d) = (dict_keys d ++ [k])%list.
Proof.
  unfold dict_keys.
  induction d as [|[k0 v0] d IH]; simpl; [reflexivity|].
  intros H. apply orb_false_iff in H as [E H]. rewrite E. simpl.
  now rewrite IH.
Qed.

Lemma dict_keys_set_present k (v : A) d :
  dict_mem k d = true -> dict_keys (dict_set k v d) = dict_keys d.
Proof.
  unfold dict_keys.
  induction d as [|[k0 v0] d IH]; simpl; [discriminate|].
  destruct (String.eqb k k0) eqn:E; simpl.
  - apply String.eqb_eq in E as <-. reflexivity.
  - intros H. now rewrite IH.
Qed.

Lemma dict_mem_keys k d : dict_mem k d = true <-> In k (dict_keys d).
Proof.
  unfold dict_keys.
  induction d as [|[k0 v0] d IH]; simpl; [split; [discriminate|tauto]|].
  rewrite orb_true_iff, IH, String.eqb_eq. intuition congruence.
Qed.

(** Assignment keeps the keys of a dictionary distinct. *)
Lemma dict_set_nodup k (v : A) d :
  List.NoDup (dict_keys d) -> List.NoDup (dict_keys (dict_set k v d)).
Proof.
  intros H. destruct (dict_mem k d) eqn:E.
  - now rewrite dict_keys_set_present.
  - rewrite dict_keys_set_fresh by exact E.
    apply List.NoDup_app; [exact H| |].
    + constructor; [intros []|constructor].
    + intros x Hx [<-|[]]. apply dict_mem_keys in Hx. congruence.
Qed.

(** A loop of assignments [d[key(x)] = val(x)] over a list. *)
Lemma fold_set_get {X : Type} (key : X -> string) (val : X -> A)
      (l : list X) (init : list (string * A)) k :
  dict_get k (fold_left (fun acc x => dict_set (key x) (val x) acc) l init) =
    match last_binding key val k l with
    | Some v => Some v
    | None => dict_get k init
    end.
Proof.
  revert init. induction l as [|x l IH]; intros init; [reflexivity|].
  cbn [fold_left last_binding]. rewrite IH.
  destruct (last_binding key val k l); [reflexivity|].
  destruct (String.eqb_spec k (key x)) as [->|Hne].
  - apply dict_get_set_eq.
  - now apply dict_get_set_ne.
Qed.

Lemma fold_set_nodup {X : Type} (key : X -> string) (val : X -> A)
      (l : list X) (init : list (string * A)) :
  List.NoDup (dict_keys init) ->
  List.NoDup (dict_keys (fold_left (fun acc x => dict_set (key x) (val x) acc) l init)).
Proof.
  revert init. induction l as [|x l IH]; intros init H; [exact H|].
  cbn [fold_left]. apply IH. now apply dict_set_nodup.
Qed.

Lemma last_binding_none {X : Type} (key : X -> string) (val : X -> A) k (l : list X) :
  last_binding key val k l = None <-> ~ In k (map key l).
Proof.
  induction l as [|x l IH]; cbn [last_binding map]; [tauto|].
  destruct (last_binding key val k l) as [v|].
  - split; [discriminate|]. intros H. exfalso. apply H. right.
    destruct (classic_in k (map key l)) as [Hin|Hout]; [exact Hin|].
    apply IH in Hout. discriminate.
  - destruct (String.eqb_spec k (key x)) as [->|Hne].
    + split; [discriminate|]. intros H. exfalso. apply H. now left.
    + split; [|reflexivity]. intros _ [E|Hin]; [congruence|].
      now apply (proj1 IH).
Qed.

Lemma last_binding_unique {X : Type} (key : X -> string) (val : X -> A) (l : list X) x :
  List.NoDup (map key l) -> In x l ->
  last_binding key val (key x) l = Some (val x).
Proof.
  induction l as [|y l IH]; cbn [map last_binding]; [intros _ []|].
  intros Hnd [->|Hin]; apply List.NoDup_cons_iff in Hnd as [Hy Hnd].
  - assert (E : last_binding key val (key x) l = None)
      by now apply last_binding_none.
    now rewrite E, String.eqb_refl.
  - now rewrite (IH Hnd Hin).
Qed.
End DictFacts.

(** * Reference resolution *)

Module Resolution.
Import Py PyFacts.

Lemma reference_path_token (path : string) : reference_path (token path) = path.
Proof.
  unfold reference_path, token.
  change ("${" ++ path ++ "}") with (String "$" (String "{" (path ++ "}"))).
  assert (E : endswith (String "$" (String "{" (path ++ "}"))) "}" = true).
  { change (String "$" (String "{" (path ++ "}")))
      with (String "$" (String "{" path) ++ "}").
    apply endswith_app. }
  rewrite E. unfold startswith. rewrite !prefix_cons, prefix_nil.
  cbn [Ascii.eqb Bool.eqb andb drop]. apply drop_last_app.
Qed.

Lemma split_char_nonempty (c : ascii) (s : string) : split_char c s <> [].
Proof.
  destruct s as [|a s]; simpl; [discriminate|].
  destruct (Ascii.eqb a c); [discriminate|].
  destruct (split_char c s); discriminate.
Qed.

Lemma split_char_app (c : ascii) (p q : string) :
  split_char c (p ++ String c q) = (split_char c p ++ split_char c q)%list.
Proof.
  induction p as [|a p IH].
  - rewrite app_nil_l. simpl. now rewrite Ascii.eqb_refl.
  - rewrite app_cons. cbn [split_char].
    destruct (Ascii.eqb a c); [now rewrite IH|].
    rewrite IH. pose proof (split_char_nonempty c p) as Hne.
    destruct (split_char c p) as [|h t]; [congruence|reflexivity].
Qed.

Lemma traverse_none (parts : list string) :
  parts <> [] -> traverse parts VNone = VNone.
Proof. destruct parts; [congruence|reflexivity]. Qed.

Lemma traverse_app (ps qs : list string) (v : value) :
  traverse (ps ++ qs)%list v = traverse qs (traverse ps v).
Proof.
  revert v. induction ps as [|p ps IH]; intros v; [reflexivity|].
  destruct qs as [|q qs]; [now rewrite List.app_nil_r|].
  cbn [app traverse].
  destruct v; try reflexivity.
  destruct (dict_get p d); [apply IH|reflexivity].
Qed.

(** Resolving [p.q] is resolving [p] and walking on along [q]. *)
Lemma resolve_extend (ctx : Context) (p q : string) :
  _resolve_reference (token (p ++ String "." q)) ctx =
  traverse (split_char "." q) (_resolve_reference (token p) ctx).
Proof.
  unfold _resolve_reference. rewrite !reference_path_token, split_char_app.
  pose proof (split_char_nonempty "." p) as Hp.
  pose proof (split_char_nonempty "." q) as Hq.
  destruct (split_char "." p) as [|first ps]; [congruence|].
  cbn [app hd tl].
  destruct (dict_mem first (context_dict ctx)).
  - apply (traverse_app (first :: ps)).
  - destruct (dict_get first (ctx_steps ctx)).
    + apply traverse_app.
    + now rewrite traverse_none.
Qed.

(** ** C5 *)

(** C5.  A request reference [${request.X}], [X] one path segment, yields
    [request[X]] when [X] is a key of the request and null otherwise; a
    reference whose first segment is neither a key of the context nor a
    recorded step id yields null; and resolution walks one segment at a
    time, going on only through a map: walking from a value that is not a
    map yields null, walking from a map looks the segment up, and the value
    of a path extended by further segments is the walk along them from the
    value of the path.  Resolution is a total function: it returns a value
    on every reference and context. *)
Theorem resolve_reference_spec :
  (forall (ctx : Context) (X : string),
      no_char "." X = true ->
      _resolve_reference (token ("request." ++ X)) ctx =
        match dict_get X (request ctx) with
        | Some v => v
        | None => VNone
        end)
  /\ (forall (ctx : Context) (reference : string),
         let first := hd EmptyString (split_char "." (reference_path reference)) in
         dict_mem first (context_dict ctx) = false ->
         dict_mem first (ctx_steps ctx) = false ->
         _resolve_reference reference ctx = VNone)
  /\ (forall (part : string) (rest : list string) (current : value),
         is_dict current = false ->
         traverse (part :: rest) current = VNone)
  /\ (forall (part : string) (rest : list string) (d : dict),
         traverse (part :: rest) (VDict d) =
           match dict_get part d with
           | Some v => traverse rest v
           | None => VNone
           end)
  /\ (forall (ctx : Context) (p q : string),
         _resolve_reference (token (p ++ String "." q)) ctx =
           traverse (split_char "." q) (_resolve_reference (token p) ctx)).
Proof.
  repeat split.
  - intros ctx X HX. unfold _resolve_reference.
    rewrite reference_path_token.
    change ("request." ++ X) with ("request" ++ String "." X).
    rewrite split_char_app, (split_char_no_sep _ X HX).
    cbn. destruct (dict_get X (request ctx)); reflexivity.
  - intros ctx reference first H1 H2. unfold _resolve_reference.
    fold first. rewrite H1, (dict_get_not_mem _ _ H2). reflexivity.
  - intros part rest current H. destruct current; try reflexivity. discriminate.
  - intros. apply resolve_extend.
Qed.

Lemma resolve_reference_spec_witness :
  let ctx := {| request := [("message", VStr "hello"); ("n", VInt 3)];
                ctx_steps := [] |} in
  _resolve_reference "${request.message}" ctx = VStr "hello"
  /\ _resolve_reference "${request.absent}" ctx = VNone
  /\ _resolve_reference "${later_step.output.x}" ctx = VNone
  /\ traverse ["digits"] (VInt 3) = VNone.
Proof.
  intros ctx.
  destruct resolve_reference_spec as (Hreq & Hunknown & Hscalar & _ & _).
  split; [apply (Hreq ctx "message"); reflexivity|].
  split; [apply (Hreq ctx "absent"); reflexivity|].
  split; [apply (Hunknown ctx "${later_step.output.x}"); reflexivity|].
  apply Hscalar; reflexivity.
Defined.

End Resolution.

(** * String interpolation *)

Module Interpolation.
Import Py PyFacts.

Lemma scan_body_app (path rest : string) :
  no_char "}" path = true ->
  scan_body (path ++ String "}" rest) = Some path.
Proof.
  induction path as [|a path IH]; intros H.
  - reflexivity.
  - simpl in H. apply andb_true_iff in H as [Ha H].
    apply negb_true_iff in Ha.
    rewrite app_cons. cbn [scan_body]. rewrite Ha, (IH H). reflexivity.
Qed.

Lemma sub_from_skip (repl : string -> string) (p : string) (k : nat) (r : string) :
  sub_from repl (String.length p + k) (p ++ r) = sub_from repl k r.
Proof.
  induction p as [|a p IH]; [reflexivity|].
  rewrite app_cons. cbn [String.length Nat.add sub_from]. exact IH.
Qed.

(** A well-formed token at the head of the text is replaced and the scan
    goes on behind it. *)
Lemma sub_from_token (repl : string -> string) (path tail : string) :
  truthy_str path = true ->
  no_char "}" path = true ->
  sub_from repl 0 (token path ++ tail) =
    repl (token path) ++ sub_from repl 0 tail.
Proof.
  intros Hne Hclose. unfold token.
  change (("${" ++ path ++ "}") ++ tail)
    with (String "$" (String "{" ((path ++ "}") ++ tail))).
  rewrite app_assoc.
  change ("}" ++ tail) with (String "}" tail).
  cbn [sub_from match_var].
  rewrite (scan_body_app path tail Hclose), Hne.
  apply (f_equal (String.append _)).
  rewrite (Nat.add_comm _ 2). cbn [Nat.add].
  change (String "}" tail) with (String "}" EmptyString ++ tail).
  rewrite <- app_assoc.
  replace (S (String.length path))
    with (String.length (path ++ String "}" EmptyString) + 0)
    by (rewrite length_app; simpl; lia).
  apply sub_from_skip.
Qed.

(** Text without a dollar sign holds no token. *)
Lemma sub_from_plain (repl : string -> string) (text : string) :
  no_char "$" text = true -> sub_from repl 0 text = text.
Proof.
  induction text as [|a text IH]; [reflexivity|].
  intros H. simpl in H. apply andb_true_iff in H as [Ha H].
  apply negb_true_iff in Ha.
  cbn [sub_from].
  assert (E : match_var (String a text) = None).
  { unfold match_var. destruct (Ascii.eqb_spec a "$"); [discriminate|].
    destruct a as [[] [] [] [] [] [] [] []]; try reflexivity. congruence. }
  rewrite E, (IH H). reflexivity.
Qed.

End Interpolation.

(** * Condition evaluation *)

Module Conditions.
Import Py PyFacts Interpolation Resolution.

Lemma empty_test_falsy (v : value) : empty_test v = negb (truthy v).
Proof. destruct v as [| | | |[|x l]|[|x d]]; reflexivity. Qed.

Lemma falsy_cases (v : value) :
  truthy v = false <->
  v = VNone \/ v = VBool false \/ v = VInt 0 \/ v = VStr EmptyString
  \/ v = VList [] \/ v = VDict [].
Proof.
  split.
  - destruct v as [|[]|z|[|a s]|[|x l]|[|x d]]; simpl; intros H;
      try discriminate; auto 7.
    apply negb_false_iff, Z.eqb_eq in H. subst. auto 7.
  - intros [->|[->|[->|[->|[->| ->]]]]]; reflexivity.
Qed.

(** The interpolated form of [token path ++ " is empty"] keeps the phrase. *)
Lemma resolved_keeps_phrase (ctx : Context) (path : string) :
  truthy_str path = true ->
  no_char "}" path = true ->
  contains "is empty" (_resolve_string_vars (token path ++ " is empty") ctx) = true.
Proof.
  intros Hne Hclose. unfold _resolve_string_vars.
  rewrite (sub_from_token _ path " is empty" Hne Hclose).
  apply contains_app_l. reflexivity.
Qed.

(** The text in front of the phrase is the token. *)
Lemma lhs_of_is_empty (path : string) :
  contains "is empty" path = false ->
  strip (split_head "is empty" (token path ++ " is empty")) = token path.
Proof.
  intros Hphrase. unfold split_head, token.
  change (("${" ++ path ++ "}") ++ " is empty")
    with (String "$" (String "{" ((path ++ "}") ++ " is empty"))).
  rewrite app_assoc.
  change (String "$" (String "{" (path ++ "}" ++ " is empty")))
    with (String "$" (String "{" path) ++ String "}" " is empty").
  rewrite (partition_through "}" "i" "s empty").
  - change (partition "is empty" " is empty") with (Some (" ", EmptyString)).
    unfold strip.
    change (lstrip is_space (String "$" (String "{" path) ++ "} "))
      with (String "$" (String "{" path) ++ "} ").
    apply (rstrip_one is_space); reflexivity.
  - reflexivity.
  - rewrite !contains_cons, !prefix_cons. exact Hphrase.
Qed.

(** ** C2 *)

(** C2, as amended.  For a reference [${path}] whose path is not empty,
    has no closing brace and does not itself contain the phrase, the
    condition "[${path}] is empty" is true exactly when the resolved value
    is falsy: null, False, the number 0, the empty string, an empty
    sequence or an empty map; it is false for every other value. *)
Theorem is_empty_condition (depth : nat) (ctx : Context) (path : string) :
  truthy_str path = true ->
  no_char "}" path = true ->
  contains "is empty" path = false ->
  let v := _resolve_reference (token path) ctx in
  _evaluate_condition (S depth) (token path ++ " is empty") ctx = negb (truthy v)
  /\ (_evaluate_condition (S depth) (token path ++ " is empty") ctx = true <->
      v = VNone \/ v = VBool false \/ v = VInt 0 \/ v = VStr EmptyString
      \/ v = VList [] \/ v = VDict []).
Proof.
  intros Hne Hclose Hphrase v.
  assert (E : _evaluate_condition (S depth) (token path ++ " is empty") ctx
              = negb (truthy v)).
  { unfold _evaluate_condition. cbn [condition_body].
    rewrite (resolved_keeps_phrase ctx path Hne Hclose).
    rewrite (lhs_of_is_empty path Hphrase).
    cbn [catch_all]. apply empty_test_falsy. }
  split; [exact E|].
  rewrite E, negb_true_iff. apply falsy_cases.
Qed.

Lemma is_empty_condition_witness :
  _evaluate_condition 1 (token "request.n" ++ " is empty")
    {| request := [("n", VList [])]; ctx_steps := [] |} = true.
Proof.
  apply (is_empty_condition 0 {| request := [("n", VList [])]; ctx_steps := [] |}
           "request.n"); [reflexivity..|].
  vm_compute. auto 7.
Defined.

(** C2, the claim as stated fails: with the number 0 under the reference,
    the condition "... is empty" evaluates to true. *)
Lemma is_empty_number_zero :
  let ctx := {| request := [("n", VInt 0)]; ctx_steps := [] |} in
  _resolve_reference "${request.n}" ctx = VInt 0
  /\ _evaluate_condition 1000 "${request.n} is empty" ctx = true.
Proof. vm_compute. split; reflexivity. Qed.

End Conditions.

Module Comparison.
Import Py PyFacts.

Lemma contains_partition (p s : string) :
  contains p s = true -> exists l r, partition p s = Some (l, r).
Proof.
  induction s as [|a s IH]; cbn [contains partition]; intros H.
  - rewrite orb_false_r in H. rewrite H. eauto.
  - destruct (String.prefix p (String a s)); [eauto|].
    destruct (IH H) as (l & r & ->). eauto.
Qed.

Lemma partition_contains (p s l r : string) :
  partition p s = Some (l, r) -> contains p s = true.
Proof.
  revert l. induction s as [|a s IH]; cbn [contains partition]; intros l H.
  - destruct (String.prefix p EmptyString); [reflexivity|discriminate].
  - destruct (String.prefix p (String a s)); [reflexivity|].
    destruct (partition p s) as [[l' r']|] eqn:E; [|discriminate].
    injection H as <- <-. now rewrite (IH l' eq_refl).
Qed.

Lemma prefix_split (p s : string) :
  String.prefix p s = true -> s = p ++ drop (String.length p) s.
Proof.
  revert s. induction p as [|a p IH]; intros s H; [reflexivity|].
  destruct s as [|b s]; [discriminate|].
  rewrite prefix_cons in H. apply andb_true_iff in H as [Hab H].
  apply Ascii.eqb_eq in Hab as ->.
  rewrite app_cons. cbn [String.length drop]. now rewrite <- (IH s H).
Qed.

(** [partition] cuts the text at an occurrence of the separator ... *)
Lemma partition_split (p s l r : string) :
  partition p s = Some (l, r) -> s = l ++ p ++ r.
Proof.
  revert l. induction s as [|a s IH]; cbn [partition]; intros l H.
  - destruct (String.prefix p EmptyString) eqn:E; [|discriminate].
    injection H as <- <-. now apply prefix_split.
  - destruct (String.prefix p (String a s)) eqn:E.
    + injection H as <- <-. now apply prefix_split.
    + destruct (partition p s) as [[l' r']|] eqn:E'; [|discriminate].
      injection H as <- <-. rewrite app_cons. f_equal. now apply IH.
Qed.

(** ... and at the first one: the separator does not match at any position
    inside the left part. *)
Lemma partition_first_occurrence (p s l r : string) :
  partition p s = Some (l, r) ->
  forall (l1 : string) (a : ascii) (l2 : string),
    l = l1 ++ String a l2 ->
    String.prefix p (String a l2 ++ p ++ r) = false.
Proof.
  revert l. induction s as [|b s IH]; cbn [partition]; intros l H l1 a l2 Hl.
  - destruct (String.prefix p EmptyString); [|discriminate].
    injection H as <- <-. destruct l1; discriminate.
  - destruct (String.prefix p (String b s)) eqn:E.
    + injection H as <- <-. destruct l1; discriminate.
    + destruct (partition p s) as [[l' r']|] eqn:E'; [|discriminate].
      injection H as <- <-.
      destruct l1 as [|c l1].
      * rewrite app_nil_l in Hl. injection Hl as <- <-.
        rewrite app_cons, <- (partition_split _ _ _ _ E'). exact E.
      * rewrite app_cons in Hl. injection Hl as <- ->.
        now apply (IH _ eq_refl l1).
Qed.

(** The comparison step, once it is reached. *)
Lemma compare_step (depth : nat) (ctx : Context) (c : string) :
  let s := _resolve_string_vars c ctx in
  contains "is empty" s = false ->
  contains "is not empty" s = false ->
  condition_body (S depth) c ctx =
    if contains "!=" s then compare_op "!=" s
    else if contains "==" s then compare_op "==" s
    else if startswith (strip s) "not " then
      inr (negb (_evaluate_condition depth (drop 4 (strip s)) ctx))
    else inr (truthy_str s).
Proof. intros s H1 H2. cbn [condition_body]. fold s. now rewrite H1, H2. Qed.

(** With call depth left, the [try] block returns: on the values of the
    model its only exception is the exhaustion of the call depth. *)
Lemma condition_body_returns (depth : nat) (c : string) (ctx : Context) :
  exists b, condition_body (S depth) c ctx = inr b.
Proof.
  cbn [condition_body].
  destruct (contains "is empty" _); [eauto|].
  destruct (contains "is not empty" _); [eauto|].
  destruct (contains "!=" _) eqn:Ene.
  { destruct (contains_partition _ _ Ene) as (l & r & Hp).
    unfold compare_op. rewrite Hp. cbn. eauto. }
  destruct (contains "==" _) eqn:Eeq.
  { destruct (contains_partition _ _ Eeq) as (l & r & Hp).
    unfold compare_op. rewrite Hp. cbn. eauto. }
  destruct (startswith _ _); eauto.
Qed.

Lemma no_char_app (c : ascii) (a b : string) :
  no_char c (a ++ b) = no_char c a && no_char c b.
Proof.
  induction a as [|x a IH]; [reflexivity|].
  rewrite app_cons. cbn [no_char]. now rewrite IH, andb_assoc.
Qed.

Lemma no_char_contains (c : ascii) (p s : string) :
  no_char c s = true -> contains (String c p) s = false.
Proof.
  induction s as [|a s IH]; [reflexivity|].
  cbn [no_char]. intros H. apply andb_true_iff in H as [Ha Hs].
  rewrite contains_cons, prefix_cons, (IH Hs).
  apply negb_true_iff in Ha. rewrite Ascii.eqb_sym in Ha. now rewrite Ha.
Qed.

Lemma prefix_app_r (p t w : string) :
  String.prefix p t = true -> String.prefix p (t ++ w) = true.
Proof.
  revert t. induction p as [|a p IH]; intros t H; [apply prefix_nil|].
  destruct t as [|b t]; [discriminate|].
  rewrite prefix_cons in H. apply andb_true_iff in H as [Hab H].
  rewrite app_cons, prefix_cons, Hab. now apply IH.
Qed.

(** A pattern free of [c] occurs in [t ++ c ++ w] only inside [t] or
    inside [w]. *)
Lemma contains_through (c a0 : ascii) (p t w : string) :
  no_char c (String a0 p) = true ->
  contains (String a0 p) (t ++ String c w) =
    contains (String a0 p) t || contains (String a0 p) w.
Proof.
  intros Hc. induction t as [|b t IH].
  - rewrite app_nil_l, contains_cons, (prefix_head_mismatch c a0 p w Hc).
    reflexivity.
  - assert (Hp : String.prefix (String a0 p) (String b t ++ String c w)
                 = String.prefix (String a0 p) (String b t)).
    { destruct (String.prefix (String a0 p) (String b t)) eqn:E.
      - now apply prefix_app_r.
      - destruct (String.prefix (String a0 p) (String b t ++ String c w)) eqn:E';
          [|reflexivity].
        apply (prefix_before_char c) in E'; [congruence|exact Hc]. }
    rewrite app_cons in Hp. rewrite app_cons, !contains_cons, IH, Hp.
    apply orb_assoc.
Qed.

Lemma drop_app (p r : string) : drop (String.length p) (p ++ r) = r.
Proof. induction p as [|a p IH]; [reflexivity|]. now rewrite app_cons. Qed.

(** The separator is found right behind a left part that is free of its
    first character. *)
Lemma partition_at (c : ascii) (p l r : string) :
  no_char c l = true ->
  partition (String c p) (l ++ String c p ++ r) = Some (l, r).
Proof.
  intros Hl. induction l as [|a l IH].
  - rewrite app_nil_l.
    destruct (String c p ++ r) as [|x y] eqn:E; [discriminate|].
    cbn [partition]. rewrite <- E, prefix_app, drop_app. reflexivity.
  - cbn [no_char] in Hl. apply andb_true_iff in Hl as [Ha Hl].
    rewrite app_cons. cbn [partition]. rewrite prefix_cons.
    apply negb_true_iff in Ha. rewrite Ascii.eqb_sym in Ha. rewrite Ha.
    cbn [andb]. now rewrite (IH Hl).
Qed.

(** The two forms on plain sides: no reference token, no operator character
    and no empty-check phrase in either side. *)
Lemma comparison_forms (depth : nat) (ctx : Context) (l r : string) :
  no_char "$" l = true -> no_char "$" r = true ->
  no_char "!" l = true -> no_char "!" r = true ->
  no_char "=" l = true ->
  contains "is empty" l = false -> contains "is empty" r = false ->
  contains "is not empty" l = false -> contains "is not empty" r = false ->
  _evaluate_condition (S depth) (l ++ "==" ++ r) ctx
    = String.eqb (unquote l) (unquote r)
  /\ _evaluate_condition (S depth) (l ++ "!=" ++ r) ctx
     = negb (String.eqb (unquote l) (unquote r)).
Proof.
  intros Dl Dr Bl Br El P1l P1r P2l P2r.
  assert (Plain : forall op, no_char "$" op = true ->
                             _resolve_string_vars (l ++ op ++ r) ctx = l ++ op ++ r).
  { intros op Hop. unfold _resolve_string_vars.
    apply Interpolation.sub_from_plain. now rewrite !no_char_app, Dl, Hop, Dr. }
  assert (Phrase : forall (a0 : ascii) (p : string) (c1 c2 : ascii),
             no_char c1 (String a0 p) = true -> no_char c2 (String a0 p) = true ->
             contains (String a0 p) l = false -> contains (String a0 p) r = false ->
             contains (String a0 p) (l ++ String c1 (String c2 r)) = false).
  { intros a0 p c1 c2 H1 H2 Hl Hr.
    rewrite (contains_through c1 a0 p l _ H1), Hl.
    change (String c2 r) with (EmptyString ++ String c2 r).
    rewrite (contains_through c2 a0 p EmptyString r H2), Hr. reflexivity. }
  unfold _evaluate_condition. split.
  - rewrite compare_step; rewrite (Plain "==" eq_refl);
      [|now apply (Phrase "i"%char "s empty" "="%char "="%char)
       |now apply (Phrase "i"%char "s not empty" "="%char "="%char)].
    rewrite (no_char_contains "!" "=") by now rewrite !no_char_app, Bl, Br.
    rewrite (contains_app_l "==" l ("==" ++ r))
      by apply contains_prefix, prefix_app.
    unfold compare_op. rewrite (partition_at "=" "=" l r El). reflexivity.
  - rewrite compare_step; rewrite (Plain "!=" eq_refl);
      [|now apply (Phrase "i"%char "s empty" "!"%char "="%char)
       |now apply (Phrase "i"%char "s not empty" "!"%char "="%char)].
    rewrite (contains_app_l "!=" l ("!=" ++ r))
      by apply contains_prefix, prefix_app.
    unfold compare_op. rewrite (partition_at "!" "=" l r Bl). reflexivity.
Qed.

(** ** C8 *)

(** C8, as amended.  When the interpolated string of a condition contains
    [==], no [!=] and no empty-check phrase, the condition is true exactly
    when the two sides of the interpolated string, cut at the first
    occurrence of [==] and stripped of whitespace and quote characters, are
    the same string; a condition evaluated by [!=] is the negation of one
    evaluated by [==] on the same two sides; in particular, for two plain
    sides (no reference token, no operator character, no empty-check phrase)
    the condition "l == r" is the equality of the stripped sides and
    "l != r" is its negation. *)
Theorem comparison_condition :
  (forall (depth : nat) (ctx : Context) (c : string),
      let s := _resolve_string_vars c ctx in
      contains "is empty" s = false ->
      contains "is not empty" s = false ->
      contains "!=" s = false ->
      contains "==" s = true ->
      exists l r,
        partition "==" s = Some (l, r)
        /\ s = l ++ "==" ++ r
        /\ (forall l1 a l2, l = l1 ++ String a l2 ->
                            String.prefix "==" (String a l2 ++ "==" ++ r) = false)
        /\ (_evaluate_condition (S depth) c ctx = true <->
            unquote l = unquote r))
  /\ (forall (depth : nat) (ctx : Context) (c_ne c_eq l r : string),
         let s_ne := _resolve_string_vars c_ne ctx in
         let s_eq := _resolve_string_vars c_eq ctx in
         contains "is empty" s_ne = false ->
         contains "is not empty" s_ne = false ->
         contains "is empty" s_eq = false ->
         contains "is not empty" s_eq = false ->
         contains "!=" s_eq = false ->
         partition "!=" s_ne = Some (l, r) ->
         partition "==" s_eq = Some (l, r) ->
         _evaluate_condition (S depth) c_ne ctx =
           negb (_evaluate_condition (S depth) c_eq ctx))
  /\ (forall (depth : nat) (ctx : Context) (l r : string),
         no_char "$" l = true -> no_char "$" r = true ->
         no_char "!" l = true -> no_char "!" r = true ->
         no_char "=" l = true ->
         contains "is empty" l = false -> contains "is empty" r = false ->
         contains "is not empty" l = false -> contains "is not empty" r = false ->
         _evaluate_condition (S depth) (l ++ "==" ++ r) ctx
           = String.eqb (unquote l) (unquote r)
         /\ _evaluate_condition (S depth) (l ++ "!=" ++ r) ctx
            = negb (_evaluate_condition (S depth) (l ++ "==" ++ r) ctx)).
Proof.
  split; [|split].
  3:{ intros depth ctx l r Dl Dr Bl Br El P1l P1r P2l P2r.
      destruct (comparison_forms depth ctx l r Dl Dr Bl Br El P1l P1r P2l P2r)
        as [Heq Hne].
      split; [exact Heq|]. now rewrite Hne, Heq. }
  - intros depth ctx c s H1 H2 H3 H4.
    destruct (contains_partition _ _ H4) as (l & r & Hp).
    exists l, r. split; [exact Hp|]. split; [now apply partition_split|].
    split; [now apply (partition_first_occurrence _ _ _ _ Hp)|].
    unfold _evaluate_condition. rewrite (compare_step depth ctx c H1 H2).
    fold s. rewrite H3, H4. unfold compare_op. rewrite Hp.
    cbn [String.eqb Ascii.eqb Bool.eqb catch_all].
    apply String.eqb_eq.
  - intros depth ctx c_ne c_eq l r s_ne s_eq N1 N2 E1 E2 E3 Pne Peq.
    unfold _evaluate_condition.
    rewrite (compare_step depth ctx c_ne N1 N2), (compare_step depth ctx c_eq E1 E2).
    fold s_ne s_eq.
    rewrite (partition_contains _ _ _ _ Pne), E3, (partition_contains _ _ _ _ Peq).
    unfold compare_op. rewrite Pne, Peq. reflexivity.
Qed.

Lemma comparison_condition_witness :
  let ctx := {| request := [("a", VStr "x")]; ctx_steps := [] |} in
  (_evaluate_condition 1 "${request.a} == 'x'" ctx = true <-> "x" = "x")
  /\ _evaluate_condition 1 "${request.a} != 'x'" ctx =
       negb (_evaluate_condition 1 "${request.a} == 'x'" ctx).
Proof.
  intros ctx. split.
  - destruct (proj1 comparison_condition 0 ctx "${request.a} == 'x'")
      as (l & r & Hp & _ & _ & H); [reflexivity..|].
    vm_compute in Hp. injection Hp as <- <-. exact H.
  - apply (proj1 (proj2 comparison_condition) 0 ctx "${request.a} != 'x'"
             "${request.a} == 'x'" "x " " 'x'"); reflexivity.
Defined.

(** C8, the claim as stated fails: this condition contains [==] and no
    empty-check phrase, the two sides around the first [==] differ, and
    yet it is true, because [!=] is looked for first. *)
Lemma comparison_ne_first :
  let ctx := {| request := []; ctx_steps := [] |} in
  let c := "1 != 2 == 3" in
  contains "==" c = true
  /\ contains "is empty" c = false
  /\ contains "is not empty" c = false
  /\ _resolve_string_vars c ctx = c
  /\ partition "==" c = Some ("1 != 2 ", " 3")
  /\ unquote "1 != 2 " <> unquote " 3"
  /\ _evaluate_condition 1000 c ctx = true.
Proof. vm_compute. repeat split; try reflexivity. discriminate. Qed.

End Comparison.

(** * The invocation contract *)

Module Invocation.

Lemma validate_first_missing (fields : list FieldSchema) (ins : dict) :
  validate_fields fields ins =
    option_map (fun f => "Missing required input: " ++ fs_name f)
               (first_missing fields ins).
Proof.
  induction fields as [|f fields IH]; [reflexivity|].
  simpl. destruct (fs_required f && negb (dict_mem (fs_name f) ins)); auto.
Qed.

Lemma first_missing_spec (fields : list FieldSchema) (ins : dict) (f0 : FieldSchema) :
  first_missing fields ins = Some f0 ->
  In f0 fields /\ fs_required f0 = true /\ dict_mem (fs_name f0) ins = false.
Proof.
  induction fields as [|f fields IH]; [discriminate|].
  simpl. destruct (fs_required f && negb (dict_mem (fs_name f) ins)) eqn:E.
  - intros [= <-]. apply andb_true_iff in E as [E1 E2].
    apply negb_true_iff in E2. auto.
  - intros H. destruct (IH H) as (? & ? & ?). auto.
Qed.

Lemma first_missing_exists (fields : list FieldSchema) (ins : dict) (field : FieldSchema) :
  In field fields -> fs_required field = true ->
  dict_mem (fs_name field) ins = false ->
  exists f0, first_missing fields ins = Some f0.
Proof.
  intros Hin Hreq Hmiss. induction fields as [|f fields IH]; [destruct Hin|].
  simpl. destruct (fs_required f && negb (dict_mem (fs_name f) ins)) eqn:E;
    [eauto|].
  destruct Hin as [->|Hin]; [|auto].
  rewrite Hreq, Hmiss in E. discriminate.
Qed.

Lemma handle_fallback_status (m : SkillManifest) (sid e : string) :
  sr_status (_handle_fallback m sid e) = fallback_status (fallback m).
Proof.
  unfold _handle_fallback, fallback_status.
  destruct (strategy (fallback m)); cbn [FallbackStrategy_eqb andb].
  - destruct (truthy_opt_str (passthrough_field (fallback m))); reflexivity.
  - destruct (is_none (default_value (fallback m))); reflexivity.
  - reflexivity.
Qed.

Lemma handle_fallback_error (m : SkillManifest) (sid e : string) :
  sr_error (_handle_fallback m sid e) = Some e.
Proof.
  unfold _handle_fallback.
  destruct (_ && _); [reflexivity|]. destruct (_ && _); reflexivity.
Qed.

Section Hooks.
Context {W : Type}.
Variable _execute : BaseExecutor -> dict -> W -> Outcome * W.
Variable _mock_execute : BaseExecutor -> dict -> W -> Outcome * W.

(** With a required input missing, [execute] is the fallback on the
    validation message and leaves the world alone. *)
Lemma execute_missing (self : BaseExecutor) (ins : dict) (sid : string)
      (mock_mode : bool) (w : W) (f0 : FieldSchema) :
  first_missing (input_schema (manifest self)) ins = Some f0 ->
  execute _execute _mock_execute self ins sid mock_mode w =
    (_handle_fallback (manifest self) sid
       ("Missing required input: " ++ fs_name f0), w).
Proof.
  intros H. unfold execute, _validate_inputs.
  rewrite validate_first_missing, H. reflexivity.
Qed.

(** A failed invocation is answered by the fallback procedure. *)
Lemma execute_failure (self : BaseExecutor) (ins : dict) (sid : string)
      (mock_mode : bool) (w : W) :
  invocation_fails _execute _mock_execute self ins mock_mode w = true ->
  exists error,
    fst (execute _execute _mock_execute self ins sid mock_mode w) =
      _handle_fallback (manifest self) sid error.
Proof.
  unfold invocation_fails, execute. intros H.
  destruct (truthy_opt_str (_validate_inputs (manifest self) ins)); [eauto|].
  simpl in H.
  destruct (dispatch _execute _mock_execute self ins mock_mode w) as [[out|e|e] w'];
    simpl in *; [discriminate|eauto..].
Qed.
End Hooks.

(** ** C1 *)

(** C1, as amended.  When the manifest declares a required input field that
    the inputs lack, [execute] returns a result whose error text is
    "Missing required input: " followed by the name of the first required
    field of the schema that is missing (the given field itself when it is
    the only one), and whose status is the one the fallback configuration
    prescribes: Failure under passthrough with a non-empty field or under
    default-value with a non-null value, Skipped otherwise. *)
Theorem missing_input_result {W : Type}
        (_execute _mock_execute : BaseExecutor -> dict -> W -> Outcome * W)
        (self : BaseExecutor) (ins : dict) (sid : string) (mock_mode : bool)
        (w : W) (field : FieldSchema) :
  In field (input_schema (manifest self)) ->
  fs_required field = true ->
  dict_mem (fs_name field) ins = false ->
  exists f0,
    first_missing (input_schema (manifest self)) ins = Some f0
    /\ In f0 (input_schema (manifest self))
    /\ fs_required f0 = true
    /\ dict_mem (fs_name f0) ins = false
    /\ ((forall g, In g (input_schema (manifest self)) ->
                   fs_required g = true ->
                   dict_mem (fs_name g) ins = false -> g = field) ->
        f0 = field)
    /\ let r := fst (execute _execute _mock_execute self ins sid mock_mode w) in
       sr_error r = Some ("Missing required input: " ++ fs_name f0)
       /\ sr_status r = fallback_status (fallback (manifest self))
       /\ (sr_status r = FAILURE \/ sr_status r = SKIPPED).
Proof.
  intros Hin Hreq Hmiss.
  destruct (first_missing_exists _ _ _ Hin Hreq Hmiss) as [f0 Hf0].
  destruct (first_missing_spec _ _ _ Hf0) as (H1 & H2 & H3).
  exists f0. repeat (split; [assumption|]).
  split; [intros Huniq; now apply Huniq|].
  rewrite (execute_missing _ _ self ins sid mock_mode w f0 Hf0). cbn [fst].
  rewrite handle_fallback_error, handle_fallback_status.
  repeat split.
  unfold fallback_status.
  destruct (strategy _); [destruct (truthy_opt_str _)|destruct (is_none _)|]; auto.
Qed.

Lemma missing_input_result_witness :
  let self := function_executor (requires_q FallbackConfig_default) in
  let r := fst (execute (counting_execute (Returned []))
                        (counting_mock_execute (Returned []))
                        self [] "test" false (0, 0)) in
  sr_error r = Some "Missing required input: q" /\ sr_status r = SKIPPED.
Proof.
  intros self r.
  destruct (missing_input_result (counting_execute (Returned []))
              (counting_mock_execute (Returned [])) self [] "test" false (0, 0)
              (field_schema "q"))
    as (f0 & Hf0 & _ & _ & _ & _ & He & Hs & _);
    [left; reflexivity|reflexivity|reflexivity|].
  vm_compute in Hf0. injection Hf0 as <-. split; [exact He|exact Hs].
Defined.

(** C1, the claim as stated fails: the manifest requires [q], the inputs
    lack it, and under the default fallback (skip) the returned status is
    Skipped, not Failure. *)
Lemma missing_input_not_failure :
  let self := function_executor (requires_q FallbackConfig_default) in
  In (field_schema "q") (input_schema (manifest self))
  /\ fs_required (field_schema "q") = true
  /\ dict_mem (fs_name (field_schema "q")) ([] : dict) = false
  /\ sr_status (fst (execute (counting_execute (Returned []))
                             (counting_mock_execute (Returned []))
                             self [] "test" false (0, 0))) <> FAILURE.
Proof.
  cbv zeta. split; [left; reflexivity|]. repeat split. vm_compute. discriminate.
Qed.

(** ** C9 *)

(** C9.  When at least one required input field is missing, [execute]
    returns right after validation: its result is the fallback on the
    validation message, whatever the two hooks are, the world comes back
    unchanged, and with hooks that count their calls neither the number of
    real calls nor the number of mock calls moves. *)
Theorem missing_input_never_dispatches {W : Type}
        (_execute _mock_execute : BaseExecutor -> dict -> W -> Outcome * W)
        (self : BaseExecutor) (ins : dict) (sid : string) (mock_mode : bool)
        (w : W) (field : FieldSchema) :
  In field (input_schema (manifest self)) ->
  fs_required field = true ->
  dict_mem (fs_name field) ins = false ->
  (exists error,
      _validate_inputs (manifest self) ins = Some error
      /\ execute _execute _mock_execute self ins sid mock_mode w =
           (_handle_fallback (manifest self) sid error, w))
  /\ (forall (real_out mock_out : Outcome) (calls : nat * nat),
         snd (execute (counting_execute real_out) (counting_mock_execute mock_out)
                      self ins sid mock_mode calls) = calls).
Proof.
  intros Hin Hreq Hmiss.
  destruct (first_missing_exists _ _ _ Hin Hreq Hmiss) as [f0 Hf0].
  split.
  - exists ("Missing required input: " ++ fs_name f0). split.
    + unfold _validate_inputs. now rewrite validate_first_missing, Hf0.
    + now apply execute_missing.
  - intros real_out mock_out calls.
    now rewrite (execute_missing _ _ self ins sid mock_mode calls f0 Hf0).
Qed.

Lemma missing_input_never_dispatches_witness :
  snd (execute (counting_execute (Returned [])) (counting_mock_execute (Returned []))
               (function_executor (requires_q FallbackConfig_default))
               [("other", VInt 1)] "test" true (0, 0)) = (0, 0).
Proof.
  apply (proj2 (missing_input_never_dispatches
                  (counting_execute (Returned []))
                  (counting_mock_execute (Returned []))
                  (function_executor (requires_q FallbackConfig_default))
                  [("other", VInt 1)] "test" true (0, 0) (field_schema "q")
                  (or_introl eq_refl) eq_refl eq_refl)).
Defined.

(** ** C7 *)

(** C7.  When an invocation fails and the manifest configures the
    default-value strategy with a value [V] (a configured value, that is
    not null), the returned result has status Failure and its output is
    [V] itself when [V] is a map and the one-entry map from "result" to
    [V] otherwise. *)
Theorem default_value_fallback {W : Type}
        (_execute _mock_execute : BaseExecutor -> dict -> W -> Outcome * W)
        (self : BaseExecutor) (ins : dict) (sid : string) (mock_mode : bool)
        (w : W) (V : value) :
  strategy (fallback (manifest self)) = DEFAULT_VALUE ->
  default_value (fallback (manifest self)) = V ->
  V <> VNone ->
  invocation_fails _execute _mock_execute self ins mock_mode w = true ->
  let r := fst (execute _execute _mock_execute self ins sid mock_mode w) in
  sr_status r = FAILURE
  /\ sr_output r = match V with
                   | VDict d => d
                   | _ => [("result", V)]
                   end.
Proof.
  intros Hs Hv Hnn Hfail r. subst r.
  destruct (execute_failure _ _ self ins sid mock_mode w Hfail) as [e ->].
  unfold _handle_fallback. rewrite Hs, Hv. cbn [FallbackStrategy_eqb andb].
  destruct V; try (split; reflexivity). congruence.
Qed.

Lemma default_value_fallback_witness :
  let self :=
    function_executor
      (requires_q {| strategy := DEFAULT_VALUE; passthrough_field := None;
                     default_value := VStr "fallback_data" |}) in
  let r := fst (execute (counting_execute (Raised "boom"))
                        (counting_mock_execute (Returned []))
                        self [("q", VStr "x")] "test" false (0, 0)) in
  sr_status r = FAILURE /\ sr_output r = [("result", VStr "fallback_data")].
Proof.
  intros self r.
  apply (default_value_fallback (counting_execute (Raised "boom"))
           (counting_mock_execute (Returned [])) self [("q", VStr "x")]
           "test" false (0, 0) (VStr "fallback_data"));
    [reflexivity|reflexivity|discriminate|reflexivity].
Defined.

End Invocation.

(** * The orchestration loop *)

Module Orchestration.
Import Py PyFacts Resolution.

Lemma get_executor_total (cache : gmap string BaseExecutor) (skill : SkillManifest) :
  exists executor cache',
    _get_executor cache skill = inr (executor, cache')
    /\ (cache !! skill_id skill = None -> manifest executor = skill).
Proof.
  unfold _get_executor. destruct (cache !! skill_id skill) as [ex|].
  - exists ex, cache. split; [reflexivity|discriminate].
  - destruct (type skill); eexists _, _; split; reflexivity || auto.
Qed.

Lemma record_step_lookup (ctx : Context) (sid : string) (out : dict) (status : string) :
  dict_get sid (ctx_steps (record_step ctx sid out status)) =
    Some (step_record out status).
Proof. apply dict_get_set_eq. Qed.

Section Hooks.
Context {W : Type}.
Variable _execute : BaseExecutor -> dict -> W -> Outcome * W.
Variable _mock_execute : BaseExecutor -> dict -> W -> Outcome * W.


(** A step leaves the entries of the other step ids alone. *)
Lemma run_step_other_id (reg : SkillRegistry) (mock_mode : bool) (depth : nat)
      (st st' : RunState) (step : FlowStep) (sid : string) :
  step_ident step <> sid ->
  run_step _execute _mock_execute reg mock_mode depth st step = inr st' ->
  dict_get sid (rs_step_results st') = dict_get sid (rs_step_results st)
  /\ dict_get sid (ctx_steps (rs_context st')) =
       dict_get sid (ctx_steps (rs_context st)).
Proof.
  intros Hne. assert (Hne' : sid <> step_ident step) by congruence.
  unfold run_step.
  destruct (match condition step with Some _ => _ | None => _ end).
  { intros [= <-]. cbn. split; now apply dict_get_set_ne. }
  destruct (get_skill reg (step_skill step)) as [skill|].
  2:{ intros [= <-]. cbn. split; now apply dict_get_set_ne. }
  destruct (_get_executor (rs_cache st) skill) as [e|[executor cache']];
    [discriminate|].
  destruct (execute _ _ _ _ _ _ _) as [r0 w'].
  destruct (passthrough_rewrite _ _ _) as [e|r]; [discriminate|].
  intros [= <-]. cbn. split; now apply dict_get_set_ne.
Qed.

Lemma run_steps_other_id (reg : SkillRegistry) (mock_mode : bool) (depth : nat)
      (todo : list FlowStep) (st st' : RunState) (sid : string) :
  id_unused sid todo ->
  run_steps _execute _mock_execute reg mock_mode depth st todo = inr st' ->
  dict_get sid (rs_step_results st') = dict_get sid (rs_step_results st)
  /\ dict_get sid (ctx_steps (rs_context st')) =
       dict_get sid (ctx_steps (rs_context st)).
Proof.
  revert st. induction todo as [|step rest IH]; intros st Hunused Hrun.
  - injection Hrun as <-. split; reflexivity.
  - inversion Hunused as [|? ? Hhd Htl]; subst.
    cbn [run_steps] in Hrun.
    destruct (run_step _ _ _ _ _ _ _) as [e|st1] eqn:Hstep; [discriminate|].
    destruct (run_step_other_id _ _ _ _ _ _ _ Hhd Hstep) as [H1 H2].
    destruct (IH st1 Htl Hrun) as [H3 H4].
    split; congruence.
Qed.

(** ** C6 *)

End Hooks.


End Orchestration.

(** * The two-phase passthrough fallback *)

Module Passthrough.
Import Py PyFacts Resolution Invocation Orchestration.

(** Phase one: the result of the fallback procedure under passthrough. *)
Lemma handle_fallback_passthrough (m : SkillManifest) (sid e F : string) :
  strategy (fallback m) = PASSTHROUGH ->
  passthrough_field (fallback m) = Some F ->
  F <> EmptyString ->
  _handle_fallback m sid e =
    {| sr_skill_id := skill_id m; sr_step_id := sid; sr_status := FAILURE;
       sr_output := passthrough_marker F; sr_error := Some e;
       sr_metadata := [("fallback_strategy", VStr "passthrough")] |}.
Proof.
  intros Hs Hf Hne. unfold _handle_fallback. rewrite Hs, Hf.
  destruct F; [congruence|reflexivity].
Qed.

(** Phase two, on a phase-one result. *)
Lemma passthrough_rewrite_marker (skill : SkillManifest) (ri : dict)
      (r : SkillResult) (F : string) :
  sr_status r = FAILURE ->
  sr_output r = passthrough_marker F ->
  passthrough_rewrite skill ri r =
    inr (if dict_mem F ri
         then set_output r [(first_output_field skill,
                             match dict_get F ri with
                             | Some v => v
                             | None => VNone
                             end)]
         else r).
Proof.
  intros Hs Ho. unfold passthrough_rewrite. rewrite Hs, Ho.
  cbn. destruct (dict_mem F ri); reflexivity.
Qed.

Section Hooks.
Context {W : Type}.
Variable _execute : BaseExecutor -> dict -> W -> Outcome * W.
Variable _mock_execute : BaseExecutor -> dict -> W -> Outcome * W.

(** The loop body on a step that is invoked and fails under passthrough. *)
Lemma run_step_passthrough (reg : SkillRegistry) (mock_mode : bool) (depth : nat)
      (st : RunState) (step : FlowStep) (skill : SkillManifest)
      (executor : BaseExecutor) (cache' : gmap string BaseExecutor) (F : string) :
  condition_met depth step (rs_context st) = true ->
  get_skill reg (step_skill step) = Some skill ->
  _get_executor (rs_cache st) skill = inr (executor, cache') ->
  strategy (fallback (manifest executor)) = PASSTHROUGH ->
  passthrough_field (fallback (manifest executor)) = Some F ->
  F <> EmptyString ->
  let ri := _resolve_step_inputs step (rs_context st) in
  invocation_fails _execute _mock_execute executor ri mock_mode (rs_world st) = true ->
  exists (r0 : SkillResult) (w' : W),
    sr_status r0 = FAILURE
    /\ sr_output r0 = passthrough_marker F
    /\ let r := if dict_mem F ri
                then set_output r0 [(first_output_field skill,
                                     match dict_get F ri with
                                     | Some v => v
                                     | None => VNone
                                     end)]
                else r0 in
       run_step _execute _mock_execute reg mock_mode depth st step =
         inr {| rs_context :=
                  record_step (rs_context st) (step_ident step) (sr_output r)
                              (status_value (sr_status r));
                rs_step_results :=
                  dict_set (step_ident step) r (rs_step_results st);
                rs_cache := cache';
                rs_world := w' |}.
Proof.
  intros Hmet Hskill Hex Hs Hf Hne ri Hfail.
  destruct (execute_failure _ _ executor ri (step_ident step) mock_mode
              (rs_world st) Hfail) as [e He].
  destruct (execute _execute _mock_execute executor ri (step_ident step)
                    mock_mode (rs_world st)) as [r0 w'] eqn:Eexec.
  cbn [fst] in He.
  rewrite (handle_fallback_passthrough _ _ _ F Hs Hf Hne) in He.
  assert (Hst : sr_status r0 = FAILURE) by now rewrite He.
  assert (Hout : sr_output r0 = passthrough_marker F) by now rewrite He.
  exists r0, w'. split; [exact Hst|]. split; [exact Hout|].
  cbv zeta. unfold run_step.
  assert (Hguard : match condition step with
                   | Some c => truthy_str c
                               && negb (_evaluate_condition depth c (rs_context st))
                   | None => false
                   end = false).
  { unfold condition_met in Hmet. destruct (condition step) as [c|]; [|reflexivity].
    destruct (truthy_str c); [|reflexivity]. simpl in *. now rewrite Hmet. }
  rewrite Hguard, Hskill, Hex. fold ri. rewrite Eexec.
  rewrite (passthrough_rewrite_marker skill ri r0 F Hst Hout).
  reflexivity.
Qed.

(** ** C4 *)

(** C4, as amended.  Let a step be invoked (its condition is met and its
    skill is registered) on an executor whose manifest configures passthrough
    with a non-empty field [F], and let the invocation fail.  When [F] is a
    key of the step's resolved inputs, the result recorded for the step, in
    the step results and in the context, has as output exactly the one-entry
    map from the first declared output field of the skill's manifest (the key
    "result" when none is declared) to [resolved_inputs[F]], and its status
    is Failure; the entry is still there at the end of the loop when no
    later step has the same id. *)
Theorem passthrough_substitution (reg : SkillRegistry) (mock_mode : bool)
        (depth : nat) (st : RunState) (step : FlowStep) (skill : SkillManifest)
        (executor : BaseExecutor) (cache' : gmap string BaseExecutor)
        (F : string) (v : value) :
  condition_met depth step (rs_context st) = true ->
  get_skill reg (step_skill step) = Some skill ->
  _get_executor (rs_cache st) skill = inr (executor, cache') ->
  strategy (fallback (manifest executor)) = PASSTHROUGH ->
  passthrough_field (fallback (manifest executor)) = Some F ->
  F <> EmptyString ->
  invocation_fails _execute _mock_execute executor
                   (_resolve_step_inputs step (rs_context st)) mock_mode
                   (rs_world st) = true ->
  dict_get F (_resolve_step_inputs step (rs_context st)) = Some v ->
  exists st' r,
    run_step _execute _mock_execute reg mock_mode depth st step = inr st'
    /\ dict_get (step_ident step) (rs_step_results st') = Some r
    /\ sr_output r = [(first_output_field skill, v)]
    /\ sr_status r = FAILURE
    /\ dict_get (step_ident step) (ctx_steps (rs_context st')) =
         Some (step_record [(first_output_field skill, v)] "failure")
    /\ first_output_field skill =
         match output_schema skill with
         | f :: _ => fs_name f
         | [] => "result"
         end
    /\ (forall (rest : list FlowStep) (st_end : RunState),
           id_unused (step_ident step) rest ->
           run_steps _execute _mock_execute reg mock_mode depth st' rest
             = inr st_end ->
           dict_get (step_ident step) (rs_step_results st_end) = Some r
           /\ dict_get (step_ident step) (ctx_steps (rs_context st_end)) =
                Some (step_record [(first_output_field skill, v)] "failure")).
Proof.
  intros Hmet Hskill Hex Hs Hf Hne Hfail Hv.
  destruct (run_step_passthrough reg mock_mode depth st step skill executor
              cache' F Hmet Hskill Hex Hs Hf Hne Hfail)
    as (r0 & w' & Hst & Hout & Hrun).
  assert (Hmem : dict_mem F (_resolve_step_inputs step (rs_context st)) = true)
    by (apply dict_get_mem; eauto).
  cbv zeta in Hrun. rewrite Hmem, Hv in Hrun.
  eexists _, _. split; [exact Hrun|]. cbn [rs_step_results rs_context].
  split; [apply dict_get_set_eq|]. cbn [set_output sr_output sr_status].
  split; [reflexivity|]. split; [exact Hst|].
  rewrite Hst.
  split; [apply record_step_lookup|]. split; [reflexivity|].
  intros rest st_end Hunused Hend.
  destruct (run_steps_other_id _ _ _ _ _ _ _ _ _ Hunused Hend) as [H1 H2].
  rewrite H1, H2. cbn [rs_step_results rs_context].
  split; [apply dict_get_set_eq|apply record_step_lookup].
Qed.

(** ** C10 *)

(** C10, as amended.  Under the same conditions (passthrough with a non-empty
    field [F], a failed invocation), when [F] is not a key of the resolved
    inputs the result recorded for the step keeps the marker map
    [{"_fallback": "passthrough", "_field": F}] as its output, with status
    Failure, in the step results and in the context, up to the end of the
    loop when no later step has the same id; a later reference to the step's
    output (the step id being one path segment other than "request" and
    "steps") then resolves to the marker and to its entries, and a response
    mapping on such a reference puts the marker's entry in the response. *)
Theorem passthrough_marker_leaks (reg : SkillRegistry) (mock_mode : bool)
        (depth : nat) (st : RunState) (step : FlowStep) (skill : SkillManifest)
        (executor : BaseExecutor) (cache' : gmap string BaseExecutor)
        (F : string) :
  condition_met depth step (rs_context st) = true ->
  get_skill reg (step_skill step) = Some skill ->
  _get_executor (rs_cache st) skill = inr (executor, cache') ->
  strategy (fallback (manifest executor)) = PASSTHROUGH ->
  passthrough_field (fallback (manifest executor)) = Some F ->
  F <> EmptyString ->
  invocation_fails _execute _mock_execute executor
                   (_resolve_step_inputs step (rs_context st)) mock_mode
                   (rs_world st) = true ->
  dict_mem F (_resolve_step_inputs step (rs_context st)) = false ->
  exists st' r,
    run_step _execute _mock_execute reg mock_mode depth st step = inr st'
    /\ dict_get (step_ident step) (rs_step_results st') = Some r
    /\ sr_output r = passthrough_marker F
    /\ sr_status r = FAILURE
    /\ dict_get (step_ident step) (ctx_steps (rs_context st')) =
         Some (step_record (passthrough_marker F) "failure")
    /\ (forall (rest : list FlowStep) (st_end : RunState),
           id_unused (step_ident step) rest ->
           run_steps _execute _mock_execute reg mock_mode depth st' rest
             = inr st_end ->
           dict_get (step_ident step) (rs_step_results st_end) = Some r
           /\ dict_get (step_ident step) (ctx_steps (rs_context st_end)) =
                Some (step_record (passthrough_marker F) "failure"))
    /\ (no_char "." (step_ident step) = true ->
        step_ident step <> "request" ->
        step_ident step <> "steps" ->
        _resolve_reference (token (step_ident step ++ ".output")) (rs_context st')
          = VDict (passthrough_marker F)
        /\ _resolve_reference (token (step_ident step ++ ".output._field"))
                              (rs_context st') = VStr F
        /\ forall (resp : dict) (field : string) (dflt : value),
            map_response (rs_context st') resp
              {| rm_field := field;
                 rm_reference := Some (token (step_ident step ++ ".output._field"));
                 rm_default := dflt |} = dict_set field (VStr F) resp).
Proof.
  intros Hmet Hskill Hex Hs Hf Hne Hfail Hmem.
  destruct (run_step_passthrough reg mock_mode depth st step skill executor
              cache' F Hmet Hskill Hex Hs Hf Hne Hfail)
    as (r0 & w' & Hst & Hout & Hrun).
  cbv zeta in Hrun. rewrite Hmem in Hrun.
  eexists _, _. split; [exact Hrun|]. cbn [rs_step_results rs_context].
  split; [apply dict_get_set_eq|].
  split; [exact Hout|]. split; [exact Hst|].
  rewrite Hst, Hout.
  split; [apply record_step_lookup|].
  split.
  { intros rest st_end Hunused Hend.
    destruct (run_steps_other_id _ _ _ _ _ _ _ _ _ Hunused Hend) as [H1 H2].
    rewrite H1, H2. cbn [rs_step_results rs_context].
    split; [apply dict_get_set_eq|apply record_step_lookup]. }
  intros Hdot Hreq Hsteps.
  assert (Hkey : forall c, dict_mem (step_ident step) (context_dict c) = false).
  { intros c. cbn [context_dict dict_mem].
    apply String.eqb_neq in Hreq, Hsteps. now rewrite Hreq, Hsteps. }
  assert (Hfield :
            _resolve_reference (token (step_ident step ++ ".output._field"))
              (record_step (rs_context st) (step_ident step)
                           (passthrough_marker F) (status_value FAILURE))
            = VStr F).
  { unfold _resolve_reference. rewrite reference_path_token.
    change (step_ident step ++ ".output._field")
      with (step_ident step ++ String "." "output._field").
    rewrite split_char_app, (split_char_no_sep _ _ Hdot).
    cbn [app hd tl]. rewrite Hkey, record_step_lookup. reflexivity. }
  split; [|split].
  - unfold _resolve_reference. rewrite reference_path_token.
    change (step_ident step ++ ".output")
      with (step_ident step ++ String "." "output").
    rewrite split_char_app, (split_char_no_sep _ _ Hdot).
    cbn [app hd tl]. rewrite Hkey, record_step_lookup. reflexivity.
  - exact Hfield.
  - intros resp field dflt. unfold map_response. cbn [rm_reference rm_field rm_default].
    rewrite Hfield. reflexivity.
Qed.

End Hooks.

Lemma passthrough_substitution_witness :
  let skill := requires_q (passthrough_to "q") in
  let st := start_state [("message", VStr "hello")] in
  exists st' r,
    run_step (counting_execute (Raised "boom")) (counting_mock_execute (Returned []))
             (registry_of skill) false 1000 st (step_on_message "q" None) = inr st'
    /\ dict_get "step1" (rs_step_results st') = Some r
    /\ sr_output r = [("answer", VStr "hello")]
    /\ sr_status r = FAILURE.
Proof.
  intros skill st.
  destruct (passthrough_substitution
              (counting_execute (Raised "boom")) (counting_mock_execute (Returned []))
              (registry_of skill) false 1000 st (step_on_message "q" None) skill
              (function_executor skill)
              (<["test_func" := function_executor skill]> ∅) "q" (VStr "hello"))
    as (st' & r & H1 & H2 & H3 & H4 & _);
    [reflexivity|vm_compute; reflexivity|vm_compute; reflexivity|reflexivity
    |reflexivity|discriminate|reflexivity|reflexivity|].
  exists st', r. auto.
Defined.

(** C4, the claim as stated fails: the strategy is passthrough, its field
    (the empty string) is a key of the resolved inputs, the invocation fails,
    and the recorded result is Skipped with an empty output. *)
Lemma passthrough_empty_field_skips :
  let skill := requires_q (passthrough_to EmptyString) in
  let step := step_on_message EmptyString None in
  let st := start_state [("message", VStr "hello")] in
  let hooks_real := counting_execute (Raised "boom") in
  let hooks_mock := counting_mock_execute (Returned []) in
  strategy (fallback skill) = PASSTHROUGH
  /\ passthrough_field (fallback skill) = Some EmptyString
  /\ dict_get EmptyString (_resolve_step_inputs step (rs_context st))
     = Some (VStr "hello")
  /\ invocation_fails hooks_real hooks_mock (function_executor skill)
                      (_resolve_step_inputs step (rs_context st)) false
                      (rs_world st) = true
  /\ exists st' r,
      run_step hooks_real hooks_mock (registry_of skill) false 1000 st step = inr st'
      /\ dict_get "step1" (rs_step_results st') = Some r
      /\ sr_status r = SKIPPED
      /\ sr_status r <> FAILURE
      /\ sr_output r = []
      /\ sr_output r <> [(first_output_field skill, VStr "hello")].
Proof.
  cbv zeta. repeat (split; [reflexivity|]).
  eexists _, _. split; [vm_compute; reflexivity|].
  repeat split; discriminate.
Qed.

Lemma passthrough_marker_leaks_witness :
  let skill := requires_q (passthrough_to "source") in
  let st := start_state [("message", VStr "hello")] in
  exists st' r,
    run_step (counting_execute (Raised "boom")) (counting_mock_execute (Returned []))
             (registry_of skill) false 1000 st (step_on_message "q" None) = inr st'
    /\ dict_get "step1" (rs_step_results st') = Some r
    /\ sr_output r = passthrough_marker "source"
    /\ _resolve_reference "${step1.output._field}" (rs_context st') = VStr "source".
Proof.
  intros skill st.
  destruct (passthrough_marker_leaks
              (counting_execute (Raised "boom")) (counting_mock_execute (Returned []))
              (registry_of skill) false 1000 st (step_on_message "q" None) skill
              (function_executor skill)
              (<["test_func" := function_executor skill]> ∅) "source")
    as (st' & r & H1 & H2 & H3 & H4 & H5 & _ & H6);
    [reflexivity|vm_compute; reflexivity|vm_compute; reflexivity|reflexivity
    |reflexivity|discriminate|reflexivity|reflexivity|].
  exists st', r. repeat (split; [assumption|]).
  apply H6; [reflexivity|discriminate|discriminate].
Defined.

(** C10, the claim as stated fails: the strategy is passthrough, its field
    (the empty string) is not a key of the resolved inputs, the invocation
    fails, and the recorded output is the empty map, not the marker. *)
Lemma passthrough_empty_field_no_marker :
  let skill := requires_q (passthrough_to EmptyString) in
  let step := step_on_message "q" None in
  let st := start_state [("message", VStr "hello")] in
  let hooks_real := counting_execute (Raised "boom") in
  let hooks_mock := counting_mock_execute (Returned []) in
  strategy (fallback skill) = PASSTHROUGH
  /\ passthrough_field (fallback skill) = Some EmptyString
  /\ dict_mem EmptyString (_resolve_step_inputs step (rs_context st)) = false
  /\ invocation_fails hooks_real hooks_mock (function_executor skill)
                      (_resolve_step_inputs step (rs_context st)) false
                      (rs_world st) = true
  /\ exists st' r,
      run_step hooks_real hooks_mock (registry_of skill) false 1000 st step = inr st'
      /\ dict_get "step1" (rs_step_results st') = Some r
      /\ sr_output r = []
      /\ sr_output r <> passthrough_marker EmptyString
      /\ dict_get "step1" (ctx_steps (rs_context st')) =
           Some (step_record [] "skipped").
Proof.
  cbv zeta. repeat (split; [reflexivity|]).
  eexists _, _. split; [vm_compute; reflexivity|].
  repeat split. discriminate.
Qed.

End Passthrough.

(** * Whole flow runs *)

Module FlowRun.
Import Orchestration.

Section Hooks.
Context {W : Type}.
Variable _execute : BaseExecutor -> dict -> W -> Outcome * W.
Variable _mock_execute : BaseExecutor -> dict -> W -> Outcome * W.



(** The result of a run on a registered flow is built from the state at the
    end of the loop. *)
Lemma execute_flow_registered (self : FlowEngine) (getenv_mock : option string)
      (depth : nat) (fid : string) (req : dict) (mock_mode : option bool) (w : W)
      (flow : FlowDefinition) (res : FlowResult) (self' : FlowEngine) (w' : W) :
  get_flow (registry self) fid = Some flow ->
  execute_flow _execute _mock_execute self getenv_mock depth fid req mock_mode w =
    inr (res, self', w') ->
  exists (mock : bool) (st_end : RunState),
    run_steps _execute _mock_execute (registry self) mock depth
              {| rs_context := {| request := req; ctx_steps := [] |};
                 rs_step_results := []; rs_cache := _executor_cache self;
                 rs_world := w |} (steps flow) = inr st_end
    /\ fr_step_results res = rs_step_results st_end
    /\ fr_response res = _build_response flow (rs_context st_end)
    /\ _executor_cache self' = rs_cache st_end
    /\ w' = rs_world st_end.
Proof.
  intros H. unfold execute_flow. rewrite H.
  match goal with
  | |- context [run_steps _ _ ?r ?m ?d ?s ?t] =>
      destruct (run_steps _execute _mock_execute r m d s t) as [e|st] eqn:E;
      [discriminate|]; intros [= <- <- <-]; exists m, st;
      split; [exact E|repeat split]
  end.
Qed.

(** *** When a run returns *)






End Hooks.

(** ** C3 *)

(** C3, at the input where the code departs from it.  The flow is registered;
    its one step calls a skill whose default-value fallback is a map shaped
    like the passthrough marker, with a list under "_field".  The call fails,
    the loop takes the default value for a marker and tests the list for
    membership among the resolved inputs: [execute_flow] raises [TypeError]
    and returns no result. *)
Theorem execute_flow_raises_on_marker_shaped_default :
  execute_flow (counting_execute (Raised "boom")) (counting_mock_execute (Returned []))
               (engine_of (requires_q marker_shaped_default)
                          (test_flow [step_on_message "q" None]))
               None 1000 "test_flow" [("message", VStr "hello")] (Some false) (0, 0)
  = inl (TypeError "unhashable type: 'list'").
Proof. vm_compute. reflexivity. Qed.

End FlowRun.

(** * The registry tables *)

Module RegistryFacts.





End RegistryFacts.

(** * The executor cache and environment references *)

Module ExecutorFacts.
Import Py PyFacts Resolution.

(** X3.  [_get_executor] never raises; it leaves in the cache, under the
    skill id, the executor it returns; on a miss that executor is built
    from the given manifest with the class of its type; from then on every
    manifest with the same skill id gets that same executor, whatever else
    the manifest says; entries under other ids are untouched. *)
Theorem executor_cache_reuse (cache : gmap string BaseExecutor) (skill : SkillManifest) :
  exists ex cache',
    _get_executor cache skill = inr (ex, cache')
    /\ cache' !! skill_id skill = Some ex
    /\ (cache !! skill_id skill = None ->
        manifest ex = skill /\ EXECUTOR_MAP (type skill) = Some (executor_class ex))
    /\ (forall ex0, cache !! skill_id skill = Some ex0 -> ex = ex0 /\ cache' = cache)
    /\ (forall skill', skill_id skill' = skill_id skill ->
                       _get_executor cache' skill' = inr (ex, cache'))
    /\ (forall k, k <> skill_id skill -> cache' !! k = cache !! k).
Proof.
  unfold _get_executor.
  destruct (cache !! skill_id skill) as [ex0|] eqn:Hlook.
  - exists ex0, cache. repeat split; try assumption; try congruence.
    intros skill' ->. unfold _get_executor. now rewrite Hlook.
  - assert (Hm : exists c, EXECUTOR_MAP (type skill) = Some c)
      by (destruct (type skill); cbn; eauto).
    destruct Hm as [c Hc]. rewrite Hc.
    eexists _, _. split; [reflexivity|].
    split; [apply lookup_insert_eq|].
    split; [intros _; split; reflexivity|].
    split; [discriminate|].
    split.
    + intros skill' ->. unfold _get_executor. now rewrite lookup_insert_eq.
    + intros k Hk. apply lookup_insert_ne. congruence.
Qed.

Lemma executor_cache_reuse_witness :
  let old := requires_q FallbackConfig_default in
  let new := requires_q (passthrough_to "q") in
  exists ex cache',
    _get_executor ∅ old = inr (ex, cache')
    /\ manifest ex = old
    /\ _get_executor cache' new = inr (ex, cache').
Proof.
  intros old new.
  destruct (executor_cache_reuse ∅ old) as (ex & cache' & H1 & _ & H2 & _ & H3 & _).
  exists ex, cache'. split; [exact H1|]. split.
  - apply H2. reflexivity.
  - apply H3. reflexivity.
Defined.

Lemma endswith_drop_last (s : string) (c : ascii) :
  endswith s (String c EmptyString) = true ->
  s = drop_last s ++ String c EmptyString.
Proof.
  induction s as [|a s IH]; [discriminate|].
  cbn [endswith]. destruct s as [|b s].
  - cbn [String.eqb endswith]. intros H.
    destruct (Ascii.eqb_spec a c) as [->|Hne]; [reflexivity|].
    cbn in H. discriminate.
  - intros H.
    assert (Hrest : endswith (String b s) (String c EmptyString) = true).
    { apply orb_true_iff in H as [H|H]; [|exact H].
      cbn [String.eqb] in H. apply andb_true_iff in H as [_ H]. discriminate. }
    cbn [drop_last]. rewrite app_cons. f_equal. now apply IH.
Qed.

(** A value wrapped in [${...}] is the token of what is inside. *)
Lemma wrapped_is_token (value : string) :
  startswith value "${" = true -> endswith value "}" = true ->
  value = token (drop_last (drop 2 value)).
Proof.
  unfold startswith. intros Hs He.
  destruct value as [|a [|b rest]]; [discriminate| |].
  { rewrite prefix_cons in Hs. apply andb_true_iff in Hs as [_ Hs]. discriminate. }
  rewrite !prefix_cons in Hs.
  apply andb_true_iff in Hs as [Ea Hs]. apply andb_true_iff in Hs as [Eb _].
  apply Ascii.eqb_eq in Ea, Eb. subst a b.
  assert (Hrest : endswith rest "}" = true).
  { cbn [endswith] in He. apply orb_true_iff in He as [He|He]; [discriminate|].
    apply orb_true_iff in He as [He|He]; [discriminate|exact He]. }
  cbn [drop]. unfold token.
  change ("${" ++ drop_last rest ++ "}")
    with (String "$" (String "{" (drop_last rest ++ "}"))).
  do 2 f_equal. now apply endswith_drop_last.
Qed.

(** X4.  [_resolve_env_var] touches only a value that is, as a whole, one
    reference [${NAME}]: such a value becomes the variable's value when the
    variable is set and stays as it is otherwise; every other value is
    returned unchanged. *)
Theorem resolve_env_var_spec (environ : gmap string string) :
  (forall name,
      _resolve_env_var environ (token name) =
        match environ !! name with
        | Some v => v
        | None => token name
        end)
  /\ (forall value,
         startswith value "${" && endswith value "}" = false ->
         _resolve_env_var environ value = value)
  /\ (forall value,
         _resolve_env_var environ value = value
         \/ exists name, value = token name
                         /\ environ !! name = Some (_resolve_env_var environ value)).
Proof.
  split; [|split].
  - intros name. pose proof (reference_path_token name) as Hp.
    unfold reference_path in Hp. unfold _resolve_env_var.
    destruct (startswith (token name) "${" && endswith (token name) "}") eqn:E.
    + rewrite <- andb_assoc, E. change (truthy_str (token name)) with true.
      cbn [andb]. now rewrite Hp.
    + exfalso. revert E. unfold token.
      change ("${" ++ name ++ "}") with (String "$" (String "{" name) ++ "}").
      rewrite endswith_app. unfold startswith. rewrite !app_cons.
      rewrite !prefix_cons, prefix_nil. discriminate.
  - intros value H. unfold _resolve_env_var.
    now rewrite <- andb_assoc, H, andb_false_r.
  - intros value. unfold _resolve_env_var.
    destruct (truthy_str value && startswith value "${" && endswith value "}") eqn:E;
      [|now left].
    destruct (environ !! drop_last (drop 2 value)) as [v|] eqn:Hv; [|now left].
    right. exists (drop_last (drop 2 value)). split; [|exact Hv].
    apply andb_true_iff in E as [E E3]. apply andb_true_iff in E as [_ E2].
    now apply wrapped_is_token.
Qed.

Lemma resolve_env_var_spec_witness :
  _resolve_env_var {[ "HOME" := "/root" ]} "serpapi" = "serpapi".
Proof.
  apply (proj1 (proj2 (resolve_env_var_spec {[ "HOME" := "/root" ]}))).
  reflexivity.
Defined.

End ExecutorFacts.

(** * More on the invocation contract *)

Module InvocationFacts.
Import Invocation.

(** X5.  When validation passes, [execute] calls exactly one hook, once:
    the mock hook when mock mode is on and the manifest allows mocking, the
    real hook otherwise; the other one is not called. *)
Theorem dispatch_exactly_once (self : BaseExecutor) (ins : dict) (sid : string)
        (mock_mode : bool) (real_out mock_out : Outcome) (real_calls mock_calls : nat) :
  _validate_inputs (manifest self) ins = None ->
  snd (execute (counting_execute real_out) (counting_mock_execute mock_out)
               self ins sid mock_mode (real_calls, mock_calls))
  = if mock_mode && mock_enabled (manifest self)
    then (real_calls, S mock_calls)
    else (S real_calls, mock_calls).
Proof.
  intros Hv. unfold execute, dispatch. rewrite Hv. cbn [truthy_opt_str].
  destruct (mock_mode && mock_enabled (manifest self)).
  - unfold counting_mock_execute. destruct mock_out; reflexivity.
  - unfold counting_execute. destruct real_out; reflexivity.
Qed.

Lemma dispatch_exactly_once_witness :
  snd (execute (counting_execute (Returned [])) (counting_mock_execute (Raised "x"))
               (function_executor (requires_q FallbackConfig_default))
               [("q", VStr "hotels")] "s" true (3, 5)) = (3, 6).
Proof.
  apply (dispatch_exactly_once
           (function_executor (requires_q FallbackConfig_default))
           [("q", VStr "hotels")] "s" true (Returned []) (Raised "x") 3 5).
  reflexivity.
Defined.

Section Hooks.
Context {W : Type}.
Variable _execute : BaseExecutor -> dict -> W -> Outcome * W.
Variable _mock_execute : BaseExecutor -> dict -> W -> Outcome * W.

(** X6.  The result of [execute], case by case.  It always carries the
    manifest's skill id and the given step id.  Its status is Success
    exactly when validation passes and the dispatched hook returns; then the
    output is what the hook returned and there is no error text.  In every
    other case the status is the one of the fallback configuration (Failure
    or Skipped) and the error text is set: the validation message, the
    hook's message, or "Timeout: " and the message for a timeout. *)
Theorem execute_result_cases (self : BaseExecutor) (ins : dict) (sid : string)
        (mock_mode : bool) (w : W) :
  let r := fst (execute _execute _mock_execute self ins sid mock_mode w) in
  let outcome := fst (dispatch _execute _mock_execute self ins mock_mode w) in
  sr_skill_id r = skill_id (manifest self)
  /\ sr_step_id r = sid
  /\ (sr_status r = SUCCESS <->
      invocation_fails _execute _mock_execute self ins mock_mode w = false)
  /\ (invocation_fails _execute _mock_execute self ins mock_mode w = false ->
      outcome = Returned (sr_output r) /\ sr_error r = None)
  /\ (invocation_fails _execute _mock_execute self ins mock_mode w = true ->
      sr_status r = fallback_status (fallback (manifest self))
      /\ sr_status r <> SUCCESS
      /\ exists e, sr_error r = Some e)
  /\ (forall e, _validate_inputs (manifest self) ins = Some e ->
                sr_error r = Some e)
  /\ (forall e, _validate_inputs (manifest self) ins = None ->
                outcome = RaisedTimeout e -> sr_error r = Some ("Timeout: " ++ e))
  /\ (forall e, _validate_inputs (manifest self) ins = None ->
                outcome = Raised e -> sr_error r = Some e).
Proof.
  assert (Hids : forall m e, sr_skill_id (_handle_fallback m sid e) = skill_id m
                             /\ sr_step_id (_handle_fallback m sid e) = sid).
  { intros m e. unfold _handle_fallback.
    destruct (_ && _); [split; reflexivity|]. destruct (_ && _); split; reflexivity. }
  assert (Hns : forall fb, fallback_status fb <> SUCCESS).
  { intros fb. unfold fallback_status.
    destruct (strategy fb); [destruct (truthy_opt_str _)|destruct (is_none _)|];
      discriminate. }
  assert (Hmsg : forall fields, forall e, validate_fields fields ins = Some e ->
                                          Py.truthy_str e = true).
  { intros fields e. rewrite validate_first_missing.
    destruct (first_missing fields ins); [|discriminate]. now intros [= <-]. }
  cbv zeta. unfold invocation_fails, execute.
  destruct (_validate_inputs (manifest self) ins) as [e0|] eqn:Hv.
  - pose proof (Hmsg _ _ Hv) as Ht. cbn [truthy_opt_str]. rewrite Ht. cbn [orb fst].
    rewrite handle_fallback_status, handle_fallback_error.
    destruct (Hids (manifest self) e0) as [-> ->].
    repeat split; intros; try discriminate; try congruence;
      try (exfalso; eapply Hns; eassumption); try apply Hns; eauto.
  - cbn [truthy_opt_str orb].
    destruct (dispatch _execute _mock_execute self ins mock_mode w) as [[out|e|e] w'];
      cbn [fst].
    + repeat split; try discriminate; try congruence.
    + rewrite handle_fallback_status, handle_fallback_error.
      destruct (Hids (manifest self) ("Timeout: " ++ e)) as [-> ->].
      repeat split; intros; try discriminate; try congruence;
        try (exfalso; eapply Hns; eassumption); try apply Hns; eauto.
    + rewrite handle_fallback_status, handle_fallback_error.
      destruct (Hids (manifest self) e) as [-> ->].
      repeat split; intros; try discriminate; try congruence;
        try (exfalso; eapply Hns; eassumption); try apply Hns; eauto.
Qed.

(** X7.  Skip fallback: when an invocation fails and the manifest's strategy
    is skip, or passthrough without a field name, or default-value without a
    value, the result is Skipped with an empty output and the error text of
    the failure, whatever that text is; and a failed invocation whose result
    is Skipped always has an empty output. *)
Theorem skip_fallback (self : BaseExecutor) (ins : dict) (sid : string)
        (mock_mode : bool) (w : W) :
  invocation_fails _execute _mock_execute self ins mock_mode w = true ->
  let fb := fallback (manifest self) in
  let r := fst (execute _execute _mock_execute self ins sid mock_mode w) in
  (strategy fb = SKIP
   \/ (strategy fb = PASSTHROUGH /\ truthy_opt_str (passthrough_field fb) = false)
   \/ (strategy fb = DEFAULT_VALUE /\ default_value fb = VNone) ->
   sr_status r = SKIPPED /\ sr_output r = []
   /\ sr_metadata r = [("fallback_strategy", VStr "skip")])
  /\ (sr_status r = SKIPPED -> sr_output r = []).
Proof.
  intros Hfail fb r. subst r.
  destruct (execute_failure _ _ self ins sid mock_mode w Hfail) as [e ->].
  unfold _handle_fallback. fold fb. split.
  - intros [Hs|[[Hs Hf]|[Hs Hd]]]; rewrite Hs; cbn [FallbackStrategy_eqb andb].
    + repeat split.
    + rewrite Hf. repeat split.
    + rewrite Hd. repeat split.
  - destruct (_ && _); [discriminate|]. destruct (_ && _); [discriminate|reflexivity].
Qed.
End Hooks.

Lemma execute_result_cases_witness :
  let self := function_executor (requires_q FallbackConfig_default) in
  let r := fst (execute (counting_execute (RaisedTimeout "30s"))
                        (counting_mock_execute (Returned []))
                        self [("q", VStr "x")] "s1" false (0, 0)) in
  sr_error r = Some "Timeout: 30s" /\ sr_status r = SKIPPED.
Proof.
  intros self r.
  destruct (execute_result_cases (counting_execute (RaisedTimeout "30s"))
              (counting_mock_execute (Returned [])) self [("q", VStr "x")] "s1"
              false (0, 0)) as (_ & _ & _ & _ & Hfail & _ & Htime & _).
  split.
  - apply (Htime "30s"); reflexivity.
  - destruct Hfail as (Hs & _); [reflexivity|exact Hs].
Defined.

Lemma skip_fallback_witness :
  let self := function_executor (requires_q FallbackConfig_default) in
  let r := fst (execute (counting_execute (Raised "boom"))
                        (counting_mock_execute (Returned []))
                        self [("q", VStr "x")] "s1" false (0, 0)) in
  sr_status r = SKIPPED /\ sr_output r = [].
Proof.
  intros self r.
  destruct (skip_fallback (counting_execute (Raised "boom"))
              (counting_mock_execute (Returned [])) self [("q", VStr "x")] "s1"
              false (0, 0) eq_refl) as [H _].
  destruct H as (H1 & H2 & _); [left; reflexivity|]. split; assumption.
Defined.

(** X8.  The default mock of the base class returns a map whose keys are
    exactly the names of the declared output fields, without repetition;
    with distinct names every declared field maps to its default, and with
    no declared field the map is empty. *)
Theorem base_mock_execute_spec (m : SkillManifest) :
  (forall n, dict_mem n (base_mock_execute m) = true <->
             In n (map fs_name (output_schema m)))
  /\ List.NoDup (dict_keys (base_mock_execute m))
  /\ (List.NoDup (map fs_name (output_schema m)) ->
      forall f, In f (output_schema m) ->
                dict_get (fs_name f) (base_mock_execute m) = Some (fs_default f))
  /\ (output_schema m = [] -> base_mock_execute m = []).
Proof.
  unfold base_mock_execute. split; [|split; [|split]].
  - intros n. split.
    + intros H. apply dict_get_mem in H as [v Hv].
      rewrite fold_set_get in Hv.
      destruct (last_binding fs_name fs_default n (output_schema m)) eqn:E;
        [|discriminate].
      destruct (classic_in n (map fs_name (output_schema m))) as [Hin|Hout];
        [exact Hin|].
      apply (last_binding_none fs_name fs_default) in Hout. congruence.
    + intros H. apply dict_get_mem. rewrite fold_set_get.
      destruct (last_binding fs_name fs_default n (output_schema m)) eqn:E; [eauto|].
      apply last_binding_none in E. contradiction.
  - apply fold_set_nodup. constructor.
  - intros Hnd f Hin. rewrite fold_set_get.
    now rewrite (last_binding_unique fs_name fs_default _ f Hnd Hin).
  - intros ->. reflexivity.
Qed.

Lemma base_mock_execute_spec_witness :
  dict_get "answer" (base_mock_execute (requires_q FallbackConfig_default))
  = Some VNone.
Proof.
  apply (proj1 (proj2 (proj2 (base_mock_execute_spec
                                (requires_q FallbackConfig_default))))
               ltac:(repeat constructor; intros [])
               (field_schema "answer")).
  left. reflexivity.
Defined.

End InvocationFacts.

(** * More on references and interpolation *)

Module ReferenceFacts.
Import Py PyFacts Resolution Interpolation.

Lemma context_key_spec (ctx : Context) (k : string) :
  dict_mem k (context_dict ctx) = String.eqb k "request" || String.eqb k "steps".
Proof. cbn [context_dict dict_mem]. now rewrite orb_false_r. Qed.

Lemma resolve_segment (ctx : Context) (sid : string) :
  no_char "." sid = true ->
  _resolve_reference (token sid) ctx =
    if dict_mem sid (context_dict ctx)
    then match dict_get sid (context_dict ctx) with Some v => v | None => VNone end
    else match dict_get sid (ctx_steps ctx) with Some v => v | None => VNone end.
Proof.
  intros Hdot. unfold _resolve_reference.
  rewrite reference_path_token, (split_char_no_sep _ _ Hdot). cbn [hd tl traverse].
  destruct (dict_mem sid (context_dict ctx)); [reflexivity|].
  destruct (dict_get sid (ctx_steps ctx)); reflexivity.
Qed.

(** X9.  Addressing a step.  For a step id that is one path segment other
    than "request" and "steps", the short form [${id.path}] and the long
    form [${steps.id.path}] resolve to the same value.  Once a step is
    recorded, [${id.status}] is its status and [${id.output.Y}] is
    [output[Y]], or null when the output has no key [Y].  A reference that
    starts with "request" always reads the request payload, so a step whose
    id is "request" cannot be read through the short form. *)
Theorem step_addressing :
  (forall (ctx : Context) (sid q : string),
      no_char "." sid = true -> sid <> "request" -> sid <> "steps" ->
      _resolve_reference (token (sid ++ String "." q)) ctx =
      _resolve_reference (token ("steps." ++ sid ++ String "." q)) ctx)
  /\ (forall (ctx : Context) (sid Y status : string) (output : dict),
         no_char "." sid = true -> sid <> "request" -> sid <> "steps" ->
         no_char "." Y = true ->
         let ctx' := record_step ctx sid output status in
         _resolve_reference (token (sid ++ ".status")) ctx' = VStr status
         /\ _resolve_reference (token (sid ++ ".output." ++ Y)) ctx' =
              match dict_get Y output with
              | Some v => v
              | None => VNone
              end)
  /\ (forall (ctx : Context) (q : string),
         _resolve_reference (token ("request." ++ q)) ctx =
           traverse (split_char "." q) (VDict (request ctx))).
Proof.
  assert (Hkey : forall ctx sid, sid <> "request" -> sid <> "steps" ->
                                 dict_mem sid (context_dict ctx) = false).
  { intros ctx sid H1 H2. rewrite context_key_spec.
    apply String.eqb_neq in H1, H2. now rewrite H1, H2. }
  split; [|split].
  - intros ctx sid q Hdot Hr Hs.
    change ("steps." ++ sid ++ String "." q)
      with ("steps" ++ String "." (sid ++ String "." q)).
    rewrite (resolve_extend ctx sid q), (resolve_extend ctx "steps").
    rewrite split_char_app, (split_char_no_sep _ _ Hdot).
    rewrite (resolve_segment ctx sid Hdot), (Hkey ctx sid Hr Hs).
    change (_resolve_reference (token "steps") ctx) with (VDict (ctx_steps ctx)).
    cbn [app traverse].
    destruct (dict_get sid (ctx_steps ctx)) as [rec|]; [reflexivity|].
    apply traverse_none. apply split_char_nonempty.
  - intros ctx sid Y status output Hdot Hr Hs HY ctx'.
    assert (Hrec : _resolve_reference (token sid) ctx' = step_record output status).
    { rewrite (resolve_segment ctx' sid Hdot), (Hkey ctx' sid Hr Hs).
      unfold ctx', record_step. cbn [ctx_steps]. now rewrite dict_get_set_eq. }
    split.
    + change (sid ++ ".status") with (sid ++ String "." "status").
      rewrite resolve_extend, Hrec. reflexivity.
    + change (sid ++ ".output." ++ Y) with (sid ++ String "." ("output" ++ String "." Y)).
      rewrite resolve_extend, Hrec, split_char_app, (split_char_no_sep _ _ HY).
      cbn. destruct (dict_get Y output); reflexivity.
  - intros ctx q.
    change ("request." ++ q) with ("request" ++ String "." q).
    now rewrite resolve_extend.
Qed.

Lemma step_addressing_witness :
  let ctx := record_step {| request := []; ctx_steps := [] |} "genie"
                         [("count", VInt 0)] "success" in
  _resolve_reference "${genie.status}" ctx = VStr "success"
  /\ _resolve_reference "${genie.output.count}" ctx = VInt 0
  /\ _resolve_reference "${genie.output.count}" ctx
     = _resolve_reference "${steps.genie.output.count}" ctx.
Proof.
  intros ctx. destruct step_addressing as (Hsame & Hrec & _).
  destruct (Hrec {| request := []; ctx_steps := [] |} "genie" "count" "success"
                 [("count", VInt 0)]) as [H1 H2];
    [reflexivity|discriminate|discriminate|reflexivity|].
  split; [exact H1|]. split; [exact H2|].
  apply (Hsame ctx "genie" "output.count"); [reflexivity|discriminate|discriminate].
Defined.

Lemma sub_from_plain_prefix (repl : string -> string) (pre rest : string) :
  no_char "$" pre = true ->
  sub_from repl 0 (pre ++ rest) = pre ++ sub_from repl 0 rest.
Proof.
  induction pre as [|a pre IH]; [reflexivity|].
  intros H. simpl in H. apply andb_true_iff in H as [Ha H].
  apply negb_true_iff in Ha.
  rewrite !app_cons. cbn [sub_from].
  assert (E : match_var (String a (pre ++ rest)) = None).
  { unfold match_var. destruct (Ascii.eqb_spec a "$"); [discriminate|].
    destruct a as [[] [] [] [] [] [] [] []]; try reflexivity. congruence. }
  rewrite E, (IH H). reflexivity.
Qed.

Lemma scan_body_unclosed (s : string) :
  no_char "}" s = true -> scan_body s = None.
Proof.
  induction s as [|a s IH]; [reflexivity|].
  cbn [no_char scan_body]. intros H. apply andb_true_iff in H as [Ha H].
  apply negb_true_iff in Ha. now rewrite Ha, (IH H).
Qed.

Lemma sub_from_unclosed (repl : string -> string) (text : string) :
  no_char "}" text = true -> sub_from repl 0 text = text.
Proof.
  induction text as [|a text IH]; [reflexivity|].
  intros H. pose proof H as H'. cbn [no_char] in H'.
  apply andb_true_iff in H' as [_ Hrest].
  cbn [sub_from].
  assert (E : match_var (String a text) = None).
  { unfold match_var.
    destruct a as [[] [] [] [] [] [] [] []]; try reflexivity.
    destruct text as [|b text]; [reflexivity|].
    destruct b as [[] [] [] [] [] [] [] []]; try reflexivity.
    cbn [no_char] in Hrest. apply andb_true_iff in Hrest as [_ Hrest].
    now rewrite (scan_body_unclosed _ Hrest). }
  now rewrite E, (IH Hrest).
Qed.

(** X10.  String interpolation.  Text without a dollar sign, and text
    without a closing brace, comes back unchanged.  In text that begins with
    a part free of dollar signs followed by a reference token (a non-empty
    path without closing brace), the part is kept, the token is replaced by
    the string form of its value, or kept as it is when it resolves to null,
    and interpolation goes on with the text behind the token; the
    replacement itself is not scanned again.  The empty token [${}] is not a
    reference. *)
Theorem interpolation_spec (ctx : Context) :
  (forall text, no_char "$" text = true -> _resolve_string_vars text ctx = text)
  /\ (forall text, no_char "}" text = true -> _resolve_string_vars text ctx = text)
  /\ (forall pre path post,
         no_char "$" pre = true ->
         truthy_str path = true ->
         no_char "}" path = true ->
         _resolve_string_vars (pre ++ token path ++ post) ctx =
           pre ++ (match _resolve_reference (token path) ctx with
                   | VNone => token path
                   | v => py_str v
                   end) ++ _resolve_string_vars post ctx)
  /\ (forall post,
         _resolve_string_vars ("${}" ++ post) ctx = "${}" ++ _resolve_string_vars post ctx).
Proof.
  unfold _resolve_string_vars. split; [|split; [|split]].
  - intros text H. now apply sub_from_plain.
  - intros text H. now apply sub_from_unclosed.
  - intros pre path post Hpre Hne Hclose.
    rewrite (sub_from_plain_prefix _ pre _ Hpre). f_equal.
    rewrite (sub_from_token _ path post Hne Hclose). f_equal.
    unfold replace_match. destruct (_resolve_reference (token path) ctx); reflexivity.
  - intros post. reflexivity.
Qed.

Lemma interpolation_spec_witness :
  _resolve_string_vars "Search for ${request.name} in ${request.city}!"
    {| request := [("name", VStr "hotels")]; ctx_steps := [] |}
  = "Search for hotels in ${request.city}!".
Proof.
  set (ctx := {| request := [("name", VStr "hotels")]; ctx_steps := [] |}).
  destruct (interpolation_spec ctx) as (Hplain & _ & Htok & _).
  change "Search for ${request.name} in ${request.city}!"
    with ("Search for " ++ token "request.name" ++ " in ${request.city}!").
  rewrite (Htok "Search for " "request.name" " in ${request.city}!");
    [|reflexivity..].
  change " in ${request.city}!" with (" in " ++ token "request.city" ++ "!").
  rewrite (Htok " in " "request.city" "!"); [|reflexivity..].
  rewrite (Hplain "!" eq_refl). reflexivity.
Defined.

End ReferenceFacts.

(** * More on conditions *)

Module ConditionFacts.
Import Py PyFacts Resolution Interpolation Conditions Comparison ReferenceFacts.

Lemma not_empty_test_truthy (v : value) : not_empty_test v = truthy v.
Proof. destruct v as [| | | |[|x l]|[|x d]]; reflexivity. Qed.

Lemma rstrip_end (f : ascii -> bool) (t : string) (c : ascii) :
  f c = false -> rstrip f (t ++ String c EmptyString) = t ++ String c EmptyString.
Proof.
  intros Hc. induction t as [|a t IH].
  - rewrite app_nil_l. cbn. now rewrite Hc.
  - rewrite app_cons. cbn [rstrip]. rewrite IH. destruct t; reflexivity.
Qed.

Lemma rstrip_app_keep (f : ascii -> bool) (pre x : string) :
  rstrip f x = x -> truthy_str x = true -> rstrip f (pre ++ x) = pre ++ x.
Proof.
  intros Hx Hne. induction pre as [|a pre IH]; [exact Hx|].
  rewrite app_cons. cbn [rstrip]. rewrite IH.
  destruct (pre ++ x) as [|b s] eqn:E; [|reflexivity].
  destruct pre; [rewrite app_nil_l in E; subst x; discriminate|discriminate].
Qed.

Lemma strip_token (path : string) : strip (token path) = token path.
Proof.
  unfold strip, token.
  change ("${" ++ path ++ "}") with (String "$" (String "{" path) ++ "}").
  change (lstrip is_space (String "$" (String "{" path) ++ "}"))
    with (String "$" (String "{" path) ++ "}").
  now apply rstrip_end.
Qed.

(** A pattern that starts with neither a dollar sign nor a brace and has no
    closing brace occurs in a token only inside its path. *)
Lemma contains_token (a0 : ascii) (p path : string) :
  Ascii.eqb a0 "$" = false -> Ascii.eqb a0 "{" = false ->
  no_char "}" (String a0 p) = true ->
  contains (String a0 p) (token path) = contains (String a0 p) path.
Proof.
  intros H1 H2 H3. unfold token.
  change ("${" ++ path ++ "}") with (String "$" (String "{" path) ++ "}").
  rewrite (contains_through "}" a0 p _ EmptyString H3).
  rewrite !contains_cons, !prefix_cons, H1, H2. cbn [andb orb].
  change (contains (String a0 p) EmptyString) with false.
  apply orb_false_r.
Qed.

(** The text in front of "is not empty" is the token. *)
Lemma lhs_of_is_not_empty (path : string) :
  contains "is not empty" path = false ->
  strip (split_head "is not empty" (token path ++ " is not empty")) = token path.
Proof.
  intros Hphrase. unfold split_head, token.
  change (("${" ++ path ++ "}") ++ " is not empty")
    with (String "$" (String "{" ((path ++ "}") ++ " is not empty"))).
  rewrite app_assoc.
  change (String "$" (String "{" (path ++ "}" ++ " is not empty")))
    with (String "$" (String "{" path) ++ String "}" " is not empty").
  rewrite (partition_through "}" "i" "s not empty").
  - change (partition "is not empty" " is not empty") with (Some (" ", EmptyString)).
    unfold strip.
    change (lstrip is_space (String "$" (String "{" path) ++ "} "))
      with (String "$" (String "{" path) ++ "} ").
    apply (rstrip_one is_space); reflexivity.
  - reflexivity.
  - rewrite !contains_cons, !prefix_cons. exact Hphrase.
Qed.

(** X11.  "is not empty" against "is empty".  For a reference [${path}]
    (path not empty, without closing brace, containing neither phrase) whose
    interpolated condition does not contain the phrase "is empty" (the
    string form of the value could bring it in), the condition
    "[${path}] is not empty" is true exactly when the resolved value is
    truthy, and it is the negation of "[${path}] is empty". *)
Theorem is_not_empty_condition (depth : nat) (ctx : Context) (path : string) :
  truthy_str path = true ->
  no_char "}" path = true ->
  contains "is empty" path = false ->
  contains "is not empty" path = false ->
  contains "is empty"
           (_resolve_string_vars (token path ++ " is not empty") ctx) = false ->
  _evaluate_condition (S depth) (token path ++ " is not empty") ctx
    = truthy (_resolve_reference (token path) ctx)
  /\ _evaluate_condition (S depth) (token path ++ " is not empty") ctx
     = negb (_evaluate_condition (S depth) (token path ++ " is empty") ctx).
Proof.
  intros Hne Hclose Hp1 Hp2 Hres.
  assert (E1 : _evaluate_condition (S depth) (token path ++ " is not empty") ctx
               = truthy (_resolve_reference (token path) ctx)).
  { unfold _evaluate_condition. cbn [condition_body]. rewrite Hres.
    assert (Hin : contains "is not empty"
                    (_resolve_string_vars (token path ++ " is not empty") ctx) = true).
    { unfold _resolve_string_vars.
      rewrite (sub_from_token _ path " is not empty" Hne Hclose).
      apply contains_app_l. reflexivity. }
    rewrite Hin, (lhs_of_is_not_empty path Hp2). cbn [catch_all].
    apply not_empty_test_truthy. }
  split; [exact E1|]. rewrite E1.
  unfold _evaluate_condition. cbn [condition_body].
  rewrite (resolved_keeps_phrase ctx path Hne Hclose), (lhs_of_is_empty path Hp1).
  cbn [catch_all]. now rewrite empty_test_falsy, negb_involutive.
Qed.

Lemma is_not_empty_condition_witness :
  let ctx := {| request := [("count", VInt 0)]; ctx_steps := [] |} in
  _evaluate_condition 1 "${request.count} is not empty" ctx = false.
Proof.
  intros ctx.
  destruct (is_not_empty_condition 0 ctx "request.count") as [H _];
    [reflexivity..|].
  exact H.
Defined.

(** X12.  A condition that is nothing but a reference (path not empty,
    without closing brace, operator or empty-check phrase).  It is true when
    the reference does not resolve (the token itself is a non-empty string)
    and when it resolves to a boolean, False included; it is false when it
    resolves to the empty string. *)
Theorem bare_reference_condition (depth : nat) (ctx : Context) (path : string) :
  truthy_str path = true ->
  no_char "}" path = true ->
  contains "is empty" path = false ->
  contains "is not empty" path = false ->
  contains "!=" path = false ->
  contains "==" path = false ->
  let v := _resolve_reference (token path) ctx in
  (v = VNone -> _evaluate_condition (S depth) (token path) ctx = true)
  /\ (forall b, v = VBool b -> _evaluate_condition (S depth) (token path) ctx = true)
  /\ (v = VStr EmptyString -> _evaluate_condition (S depth) (token path) ctx = false).
Proof.
  intros Hne Hclose P1 P2 P3 P4 v.
  assert (Hres : _resolve_string_vars (token path) ctx = replace_match ctx (token path)).
  { unfold _resolve_string_vars.
    rewrite <- (app_nil_r (token path)) at 1.
    rewrite (sub_from_token _ path EmptyString Hne Hclose). apply app_nil_r. }
  unfold _evaluate_condition. cbn [condition_body]. rewrite Hres.
  unfold replace_match. fold v. split; [|split].
  - intros ->. cbn [is_none negb].
    rewrite (contains_token "i" "s empty"), P1 by reflexivity.
    rewrite (contains_token "i" "s not empty"), P2 by reflexivity.
    rewrite (contains_token "!" "="), P3 by reflexivity.
    rewrite (contains_token "=" "="), P4 by reflexivity.
    rewrite strip_token. reflexivity.
  - intros b ->. destruct b; reflexivity.
  - intros ->. reflexivity.
Qed.

Lemma bare_reference_condition_witness :
  _evaluate_condition 1 "${request.flag}"
    {| request := [("flag", VBool false)]; ctx_steps := [] |} = true
  /\ _evaluate_condition 1 "${request.absent}"
       {| request := [("flag", VBool false)]; ctx_steps := [] |} = true.
Proof.
  split.
  - apply (proj1 (proj2 (bare_reference_condition 0
                           {| request := [("flag", VBool false)]; ctx_steps := [] |}
                           "request.flag" eq_refl eq_refl eq_refl eq_refl eq_refl
                           eq_refl)) false).
    reflexivity.
  - apply (proj1 (bare_reference_condition 0
                    {| request := [("flag", VBool false)]; ctx_steps := [] |}
                    "request.absent" eq_refl eq_refl eq_refl eq_refl eq_refl eq_refl)).
    reflexivity.
Defined.

End ConditionFacts.

(** * The [not] prefix *)

Module NegationFacts.
Import Py PyFacts Resolution Interpolation Conditions Comparison ReferenceFacts.
Import ConditionFacts.

Lemma split_char_head_app (c : ascii) (pre s : string) :
  no_char c pre = true ->
  hd EmptyString (split_char c (pre ++ s)) = pre ++ hd EmptyString (split_char c s).
Proof.
  induction pre as [|a pre IH]; [reflexivity|].
  cbn [no_char]. intros H. apply andb_true_iff in H as [Ha H].
  apply negb_true_iff in Ha.
  rewrite !app_cons. cbn [split_char]. rewrite Ha.
  pose proof (split_char_nonempty c (pre ++ s)) as Hne.
  specialize (IH H).
  destruct (split_char c (pre ++ s)) as [|h t]; [congruence|].
  cbn [hd] in *. now rewrite IH.
Qed.

(** What a lone reference token contains of a pattern is inside its path;
    a token that resolves to nothing is a true condition. *)
Lemma bare_unresolved (depth : nat) (ctx : Context) (path : string) :
  truthy_str path = true ->
  no_char "}" path = true ->
  contains "is empty" path = false ->
  contains "is not empty" path = false ->
  contains "!=" path = false ->
  contains "==" path = false ->
  _resolve_reference (token path) ctx = VNone ->
  _resolve_string_vars (token path) ctx = token path
  /\ _evaluate_condition (S depth) (token path) ctx = true.
Proof.
  intros Hne Hclose P1 P2 P3 P4 Hv.
  assert (Hres : _resolve_string_vars (token path) ctx = token path).
  { unfold _resolve_string_vars.
    rewrite <- (app_nil_r (token path)) at 1.
    rewrite (sub_from_token _ path EmptyString Hne Hclose).
    unfold replace_match. rewrite Hv. apply app_nil_r. }
  split; [exact Hres|].
  unfold _evaluate_condition. cbn [condition_body]. rewrite Hres.
  rewrite (contains_token "i" "s empty"), P1 by reflexivity.
  rewrite (contains_token "i" "s not empty"), P2 by reflexivity.
  rewrite (contains_token "!" "="), P3 by reflexivity.
  rewrite (contains_token "=" "="), P4 by reflexivity.
  rewrite strip_token. reflexivity.
Qed.

(** X13.  The [not] prefix in front of a lone reference [${path}] (path not
    empty, without closing brace, operator or empty-check phrase) is not the
    negation of the value: with call depth for the inner evaluation, the
    condition "not [${path}]" is false when the reference does not resolve
    and false when it resolves to a boolean, True or False alike (the inner
    condition is the non-empty text "True" or "False"); it is true when the
    reference resolves to the empty string. *)
Theorem not_reference_condition (depth : nat) (ctx : Context) (path : string) :
  truthy_str path = true ->
  no_char "}" path = true ->
  contains "is empty" path = false ->
  contains "is not empty" path = false ->
  contains "!=" path = false ->
  contains "==" path = false ->
  let v := _resolve_reference (token path) ctx in
  (v = VNone ->
   _evaluate_condition (S (S depth)) ("not " ++ token path) ctx = false)
  /\ (forall b, v = VBool b ->
      _evaluate_condition (S (S depth)) ("not " ++ token path) ctx = false)
  /\ (v = VStr EmptyString ->
      _evaluate_condition (S (S depth)) ("not " ++ token path) ctx = true).
Proof.
  intros Hne Hclose P1 P2 P3 P4 v.
  assert (Hres : _resolve_string_vars ("not " ++ token path) ctx
                 = "not " ++ replace_match ctx (token path)).
  { unfold _resolve_string_vars.
    rewrite (sub_from_plain_prefix _ "not " (token path) eq_refl).
    apply (f_equal (String.append _)).
    rewrite <- (app_nil_r (token path)) at 1.
    rewrite (sub_from_token _ path EmptyString Hne Hclose). apply app_nil_r. }
  split; [|split].
  - intros Hv.
    destruct (bare_unresolved depth ctx path Hne Hclose P1 P2 P3 P4 Hv)
      as [_ Hinner].
    unfold replace_match in Hres. fold v in Hres. rewrite Hv in Hres.
    cbn [is_none negb] in Hres.
    assert (T1 : contains "is empty" (token path) = false)
      by (rewrite (contains_token "i" "s empty"); [exact P1|reflexivity..]).
    assert (T2 : contains "is not empty" (token path) = false)
      by (rewrite (contains_token "i" "s not empty"); [exact P2|reflexivity..]).
    assert (T3 : contains "!=" (token path) = false)
      by (rewrite (contains_token "!" "="); [exact P3|reflexivity..]).
    assert (T4 : contains "==" (token path) = false)
      by (rewrite (contains_token "=" "="); [exact P4|reflexivity..]).
    assert (Hr : rstrip is_space ("not " ++ token path) = "not " ++ token path).
    { apply rstrip_app_keep; [|reflexivity].
      unfold token.
      change ("${" ++ path ++ "}") with (String "$" (String "{" path) ++ "}").
      now apply rstrip_end. }
    pose proof (compare_step (S depth) ctx ("not " ++ token path)) as Hc.
    cbv zeta in Hc. rewrite Hres in Hc.
    unfold _evaluate_condition at 1. clear Hres.
    revert T1 T2 T3 T4 Hr Hinner Hc. generalize (token path) as tk.
    intros tk T1 T2 T3 T4 Hr Hinner Hc.
    change ("not " ++ tk)
      with (String "n" (String "o" (String "t" (String " " tk)))) in *.
    rewrite !contains_cons, !prefix_cons, ?T1, ?T2, ?T3, ?T4 in Hc.
    cbn [Ascii.eqb Bool.eqb andb orb] in Hc.
    unfold strip in Hc.
    change (lstrip is_space (String "n" (String "o" (String "t" (String " " tk)))))
      with (String "n" (String "o" (String "t" (String " " tk)))) in Hc.
    rewrite Hr in Hc. unfold startswith in Hc.
    rewrite !prefix_cons, prefix_nil in Hc.
    cbn [Ascii.eqb Bool.eqb andb drop] in Hc.
    rewrite (Hc eq_refl eq_refl), Hinner. reflexivity.
  - intros b Hv. unfold _evaluate_condition. cbn [condition_body]. rewrite Hres.
    unfold replace_match. fold v. rewrite Hv. destruct b; reflexivity.
  - intros Hv. unfold _evaluate_condition. cbn [condition_body]. rewrite Hres.
    unfold replace_match. fold v. rewrite Hv. reflexivity.
Qed.

Lemma not_reference_condition_witness :
  _evaluate_condition 2 "not ${request.flag}"
    {| request := [("flag", VBool false)]; ctx_steps := [] |} = false.
Proof.
  apply (proj1 (proj2 (not_reference_condition 0
                         {| request := [("flag", VBool false)]; ctx_steps := [] |}
                         "request.flag" eq_refl eq_refl eq_refl eq_refl eq_refl
                         eq_refl)) false).
  reflexivity.
Defined.

(** X14.  "not [${path}] is empty" is not the negation of
    "[${path}] is empty".  The value tested is looked up under the raw text in
    front of the phrase, here "not [${path}]", which is no wrapped reference;
    unless a recorded step id starts with "not ", the lookup finds nothing and
    the condition is true whatever the reference resolves to. *)
Theorem not_is_empty_true (depth : nat) (ctx : Context) (path : string) :
  truthy_str path = true ->
  no_char "}" path = true ->
  contains "is empty" path = false ->
  (forall sid, dict_mem sid (ctx_steps ctx) = true -> startswith sid "not " = false) ->
  _evaluate_condition (S depth) ("not " ++ token path ++ " is empty") ctx = true.
Proof.
  intros Hne Hclose Hphrase Hids.
  unfold _evaluate_condition. cbn [condition_body].
  assert (Hres : contains "is empty"
                   (_resolve_string_vars ("not " ++ token path ++ " is empty") ctx)
                 = true).
  { unfold _resolve_string_vars.
    rewrite (sub_from_plain_prefix _ "not " _ eq_refl).
    apply contains_app_l. apply (resolved_keeps_phrase ctx path Hne Hclose). }
  rewrite Hres.
  assert (Hlhs : strip (split_head "is empty" ("not " ++ token path ++ " is empty"))
                 = "not " ++ token path).
  { unfold split_head, token.
    change ("not " ++ ("${" ++ path ++ "}") ++ " is empty")
      with (String "n" (String "o" (String "t" (String " "
              (String "$" (String "{" ((path ++ "}") ++ " is empty"))))))).
    rewrite app_assoc.
    change (String "n" (String "o" (String "t" (String " "
              (String "$" (String "{" (path ++ "}" ++ " is empty")))))))
      with (String "n" (String "o" (String "t" (String " "
              (String "$" (String "{" path))))) ++ String "}" " is empty").
    rewrite (partition_through "}" "i" "s empty").
    - change (partition "is empty" " is empty") with (Some (" ", EmptyString)).
      unfold strip.
      change (lstrip is_space
                (String "n" (String "o" (String "t" (String " "
                   (String "$" (String "{" path))))) ++ "} "))
        with (String "n" (String "o" (String "t" (String " "
                (String "$" (String "{" path))))) ++ "} ").
      apply (rstrip_one is_space); reflexivity.
    - reflexivity.
    - rewrite !contains_cons, !prefix_cons. exact Hphrase. }
  rewrite Hlhs. cbn [catch_all].
  assert (Hv : _resolve_reference ("not " ++ token path) ctx = VNone).
  { unfold _resolve_reference.
    assert (Hpath : reference_path ("not " ++ token path) = "not " ++ token path)
      by reflexivity.
    rewrite Hpath.
    pose proof (split_char_head_app "." "not " (token path) eq_refl) as Hhd.
    set (first := hd EmptyString (split_char "." ("not " ++ token path))) in *.
    assert (Hfirst : startswith first "not " = true)
      by (rewrite Hhd; apply prefix_app).
    assert (Hctx : dict_mem first (context_dict ctx) = false).
    { rewrite Hhd. reflexivity. }
    rewrite Hctx.
    destruct (dict_get first (ctx_steps ctx)) as [cur|] eqn:E; [|reflexivity].
    assert (dict_mem first (ctx_steps ctx) = true) by (apply dict_get_mem; eauto).
    rewrite (Hids first) in Hfirst by assumption. discriminate. }
  now rewrite Hv.
Qed.

Lemma not_is_empty_true_witness :
  let ctx := {| request := [("items", VList [])]; ctx_steps := [] |} in
  _evaluate_condition 1 "not ${request.items} is empty" ctx = true
  /\ _evaluate_condition 1 "${request.items} is empty" ctx = true.
Proof.
  intros ctx. split; [|reflexivity].
  apply (not_is_empty_true 0 ctx "request.items"); try reflexivity.
  intros sid H. discriminate.
Defined.

End NegationFacts.

(** * Inputs, response and the loop of [execute_flow] *)

Module LoopFacts.
Import Py PyFacts Resolution ReferenceFacts.

Lemma fold_left_pointwise {A B : Type} (f g : A -> B -> A) (l : list B) (a : A) :
  (forall a x, f a x = g a x) -> fold_left f l a = fold_left g l a.
Proof.
  intros H. revert a. induction l as [|x l IH]; intros a; [reflexivity|].
  cbn [fold_left]. now rewrite H, IH.
Qed.

Lemma map_response_set (ctx : Context) (resp : dict) (m : ResponseMapping) :
  map_response ctx resp m = dict_set (rm_field m) (mapped_value ctx m) resp.
Proof.
  unfold map_response, mapped_value.
  destruct (rm_reference m) as [r|]; [|reflexivity].
  destruct (truthy_str r); reflexivity.
Qed.

Lemma resolve_step_inputs_fold (step : FlowStep) (ctx : Context) :
  _resolve_step_inputs step ctx =
  fold_left (fun acc i => dict_set (si_field i) (bound_value ctx i) acc)
            (inputs step) [].
Proof. reflexivity. Qed.

Lemma build_response_fold (flow : FlowDefinition) (ctx : Context) :
  _build_response flow ctx =
  fold_left (fun acc m => dict_set (rm_field m) (mapped_value ctx m) acc)
            (response flow) [].
Proof. apply fold_left_pointwise. apply map_response_set. Qed.

(** A loop of assignments binds exactly the keys it assigns. *)
Lemma fold_set_mem {A X : Type} (key : X -> string) (val : X -> A) (l : list X)
      (k : string) :
  dict_mem k (fold_left (fun acc x => dict_set (key x) (val x) acc) l []) = true
  <-> In k (map key l).
Proof.
  rewrite dict_get_mem, fold_set_get. cbn [dict_get].
  pose proof (last_binding_none key val k l) as Hn.
  destruct (last_binding key val k l) as [v|].
  - split; [intros _|eauto].
    destruct (classic_in k (map key l)) as [Hin|Hout]; [exact Hin|].
    apply Hn in Hout. discriminate.
  - split; [intros [v Hv]; discriminate|].
    intros Hin. exfalso. now apply (proj1 Hn).
Qed.

(** X15.  The inputs of a step.  The resolved inputs have exactly the field
    names of the step's bindings, each once; when a field is bound more
    than once the last binding wins; a field bound once holds the value of
    its binding: the resolved reference when the binding has a non-empty
    one, its static value otherwise, and a string (static, or obtained from
    the reference) with its tokens interpolated. *)
Theorem resolve_step_inputs_spec (step : FlowStep) (ctx : Context) :
  let resolved := _resolve_step_inputs step ctx in
  List.NoDup (dict_keys resolved)
  /\ (forall k, dict_mem k resolved = true <-> In k (map si_field (inputs step)))
  /\ (forall k, dict_get k resolved
                = last_binding si_field (bound_value ctx) k (inputs step))
  /\ (forall i, List.NoDup (map si_field (inputs step)) -> In i (inputs step) ->
                dict_get (si_field i) resolved =
                Some (match match si_reference i with
                            | Some r => if truthy_str r then _resolve_reference r ctx
                                        else si_value i
                            | None => si_value i
                            end with
                      | VStr s => VStr (_resolve_string_vars s ctx)
                      | v => v
                      end)).
Proof.
  intros resolved. unfold resolved. rewrite resolve_step_inputs_fold.
  assert (Hget : forall k,
             dict_get k (fold_left (fun acc i => dict_set (si_field i)
                                                          (bound_value ctx i) acc)
                                   (inputs step) [])
             = last_binding si_field (bound_value ctx) k (inputs step)).
  { intros k. rewrite fold_set_get. cbn [dict_get].
    destruct (last_binding _ _ _ _); reflexivity. }
  split; [apply fold_set_nodup; constructor|].
  split; [intros k; apply fold_set_mem|].
  split; [exact Hget|].
  intros i Hnd Hin. rewrite Hget.
  rewrite (last_binding_unique si_field (bound_value ctx) _ _ Hnd Hin).
  unfold bound_value. cbv zeta.
  destruct (match si_reference i with Some _ => _ | None => _ end); reflexivity.
Qed.

Lemma resolve_step_inputs_spec_witness :
  let ctx := {| request := [("city", VStr "Rome")]; ctx_steps := [] |} in
  let i := {| si_field := "q"; si_value := VStr "hotels in ${request.city}";
              si_reference := None |} in
  let step := {| step_skill := "search"; step_ident := "s1"; inputs := [i];
                 condition := None; parallel_with := None |} in
  dict_get "q" (_resolve_step_inputs step ctx) = Some (VStr "hotels in Rome").
Proof.
  intros ctx i step.
  destruct (resolve_step_inputs_spec step ctx) as (_ & _ & _ & H).
  apply (H i).
  - repeat constructor. intros [].
  - now left.
Defined.

(** X16.  The response of a flow.  The response has exactly the field names
    of the flow's mappings, each once, the last mapping of a field winning.
    A field mapped once holds the resolved reference unless that is null,
    and the mapping's default when the reference is missing, empty or
    resolves to null; a resolved value that is falsy without being null
    (zero, False, the empty string, an empty list) is kept. *)
Theorem build_response_spec (flow : FlowDefinition) (ctx : Context) :
  let resp := _build_response flow ctx in
  List.NoDup (dict_keys resp)
  /\ (forall k, dict_mem k resp = true <-> In k (map rm_field (response flow)))
  /\ (forall k, dict_get k resp
                = last_binding rm_field (mapped_value ctx) k (response flow))
  /\ (forall m, List.NoDup (map rm_field (response flow)) -> In m (response flow) ->
        (forall r v, rm_reference m = Some r -> truthy_str r = true ->
                     _resolve_reference r ctx = v -> v <> VNone ->
                     dict_get (rm_field m) resp = Some v)
        /\ (forall r, rm_reference m = Some r -> truthy_str r = true ->
                      _resolve_reference r ctx = VNone ->
                      dict_get (rm_field m) resp = Some (rm_default m))
        /\ (truthy_opt_str (rm_reference m) = false ->
            dict_get (rm_field m) resp = Some (rm_default m))).
Proof.
  intros resp. unfold resp. rewrite build_response_fold.
  assert (Hget : forall k,
             dict_get k (fold_left (fun acc m => dict_set (rm_field m)
                                                          (mapped_value ctx m) acc)
                                   (response flow) [])
             = last_binding rm_field (mapped_value ctx) k (response flow)).
  { intros k. rewrite fold_set_get. cbn [dict_get].
    destruct (last_binding _ _ _ _); reflexivity. }
  split; [apply fold_set_nodup; constructor|].
  split; [intros k; apply fold_set_mem|].
  split; [exact Hget|].
  intros m Hnd Hin. rewrite Hget.
  rewrite (last_binding_unique rm_field (mapped_value ctx) _ _ Hnd Hin).
  unfold mapped_value. split; [|split].
  - intros r v -> -> <- Hv.
    destruct (_resolve_reference r ctx); [congruence|reflexivity..].
  - intros r -> -> ->. reflexivity.
  - destruct (rm_reference m) as [r|]; [|reflexivity].
    cbn [truthy_opt_str]. now intros ->.
Qed.

Lemma build_response_spec_witness :
  let ctx := {| request := [("count", VInt 0)]; ctx_steps := [] |} in
  let m := {| rm_field := "n"; rm_reference := Some "${request.count}";
              rm_default := VInt 7 |} in
  dict_get "n" (_build_response (test_flow_with [m]) ctx) = Some (VInt 0).
Proof.
  intros ctx m.
  destruct (build_response_spec (test_flow_with [m]) ctx) as (_ & _ & _ & H).
  destruct (H m) as (Hv & _ & _).
  - repeat constructor. intros [].
  - now left.
  - apply (Hv "${request.count}" (VInt 0)); [reflexivity..|discriminate].
Defined.

End LoopFacts.

(** * Whole runs *)

Module FlowFacts.
Import Py PyFacts Resolution ReferenceFacts LoopFacts FlowRun.

Lemma handle_fallback_step_id (m : SkillManifest) (sid e : string) :
  sr_step_id (_handle_fallback m sid e) = sid.
Proof.
  unfold _handle_fallback.
  destruct (_ && _); [reflexivity|]. destruct (_ && _); reflexivity.
Qed.

Lemma passthrough_rewrite_step_id (skill : SkillManifest) (ri : dict)
      (r0 r : SkillResult) :
  passthrough_rewrite skill ri r0 = inr r -> sr_step_id r = sr_step_id r0.
Proof.
  unfold passthrough_rewrite. destruct (_ && _); [|now intros [= <-]].
  destruct (value_in_dict _ ri) as [e|[|]]; [discriminate| |]; now intros [= <-].
Qed.

(** Recording a result and its context entry under the same id keeps the
    context and the results in step. *)
Lemma mirrored_set (ctx : Context) (results : list (string * SkillResult))
      (sid : string) (r : SkillResult) (steps' : dict) :
  mirrored ctx results ->
  steps' = dict_set sid (record_of r) (ctx_steps ctx) ->
  mirrored {| request := request ctx; ctx_steps := steps' |} (dict_set sid r results).
Proof.
  intros H -> k. cbn [ctx_steps].
  destruct (String.eqb_spec k sid) as [->|Hne].
  - now rewrite !dict_get_set_eq.
  - rewrite !dict_get_set_ne by exact Hne. apply H.
Qed.

(** A step reads the request and the recorded steps of a context that
    mirrors the results, as the sub-path of a step's output. *)
Lemma resolve_step_output (ctx : Context) (results : list (string * SkillResult))
      (sid f : string) :
  mirrored ctx results ->
  no_char "." sid = true -> sid <> "request" -> sid <> "steps" ->
  no_char "." f = true ->
  _resolve_reference (token (sid ++ ".output." ++ f)) ctx =
    match dict_get sid results with
    | Some r => match dict_get f (sr_output r) with Some v => v | None => VNone end
    | None => VNone
    end.
Proof.
  intros Hm Hdot Hr Hs Hf.
  change (sid ++ ".output." ++ f) with (sid ++ String "." ("output" ++ String "." f)).
  rewrite resolve_extend, (resolve_segment ctx sid Hdot), context_key_spec.
  apply String.eqb_neq in Hr, Hs. rewrite Hr, Hs. cbn [orb].
  rewrite (Hm sid), split_char_app, (split_char_no_sep _ _ Hf).
  destruct (dict_get sid results) as [r|]; cbn; [|reflexivity].
  destruct (dict_get f (sr_output r)); reflexivity.
Qed.

Section Hooks.
Context {W : Type}.
Variable _execute : BaseExecutor -> dict -> W -> Outcome * W.
Variable _mock_execute : BaseExecutor -> dict -> W -> Outcome * W.

Lemma execute_step_id (ex : BaseExecutor) (ins : dict) (sid : string)
      (mock_mode : bool) (w : W) :
  sr_step_id (fst (execute _execute _mock_execute ex ins sid mock_mode w)) = sid.
Proof.
  unfold execute.
  destruct (truthy_opt_str _); [apply handle_fallback_step_id|].
  destruct (dispatch _ _ _ _ _ _) as [[o|e|e] w']; cbn [fst];
    [reflexivity|apply handle_fallback_step_id..].
Qed.

(** What one pass of the loop body does to the context and the results. *)
Lemma run_step_effect (reg : SkillRegistry) (mock_mode : bool) (depth : nat)
      (st st' : RunState) (step : FlowStep) :
  run_step _execute _mock_execute reg mock_mode depth st step = inr st' ->
  exists r,
    request (rs_context st') = request (rs_context st)
    /\ ctx_steps (rs_context st') =
         dict_set (step_ident step) (record_of r) (ctx_steps (rs_context st))
    /\ rs_step_results st' = dict_set (step_ident step) r (rs_step_results st)
    /\ sr_step_id r = step_ident step.
Proof.
  unfold run_step.
  destruct (match condition step with Some _ => _ | None => _ end).
  { intros [= <-].
    exists {| sr_skill_id := step_skill step; sr_step_id := step_ident step;
              sr_status := SKIPPED; sr_output := []; sr_error := None;
              sr_metadata := [("reason", VStr "condition_not_met")] |}.
    repeat split. }
  destruct (get_skill reg (step_skill step)) as [skill|].
  2:{ intros [= <-].
      exists {| sr_skill_id := step_skill step; sr_step_id := step_ident step;
                sr_status := FAILURE; sr_output := [];
                sr_error := Some ("Skill not found: " ++ step_skill step);
                sr_metadata := [] |}.
      repeat split. }
  destruct (_get_executor (rs_cache st) skill) as [e|[ex cache']]; [discriminate|].
  pose proof (execute_step_id ex (_resolve_step_inputs step (rs_context st))
                              (step_ident step) mock_mode (rs_world st)) as Hid.
  destruct (execute _ _ ex _ _ _ _) as [r0 w'] eqn:E. cbn [fst] in Hid.
  destruct (passthrough_rewrite skill _ r0) as [e|r] eqn:P; [discriminate|].
  intros [= <-]. exists r. repeat split.
  rewrite (passthrough_rewrite_step_id _ _ _ _ P). exact Hid.
Qed.

(** What the loop keeps true from step to step. *)
Lemma run_steps_effect (reg : SkillRegistry) (mock_mode : bool) (depth : nat)
      (todo : list FlowStep) (st st' : RunState) :
  run_steps _execute _mock_execute reg mock_mode depth st todo = inr st' ->
  request (rs_context st') = request (rs_context st)
  /\ (mirrored (rs_context st) (rs_step_results st) ->
      mirrored (rs_context st') (rs_step_results st'))
  /\ (forall k, dict_mem k (rs_step_results st') = true <->
                dict_mem k (rs_step_results st) = true \/ In k (map step_ident todo))
  /\ (List.NoDup (dict_keys (rs_step_results st)) ->
      List.NoDup (dict_keys (rs_step_results st')))
  /\ ((forall k r, dict_get k (rs_step_results st) = Some r -> sr_step_id r = k) ->
      forall k r, dict_get k (rs_step_results st') = Some r -> sr_step_id r = k).
Proof.
  revert st. induction todo as [|step rest IH]; intros st.
  - intros [= <-]. repeat split; try tauto. intros [H|[]]; exact H.
  - cbn [run_steps].
    destruct (run_step _ _ reg mock_mode depth st step) as [e|st1] eqn:E;
      [discriminate|].
    intros Hrest.
    destruct (run_step_effect _ _ _ _ _ _ E) as (r & Hreq & Hctx & Hres & Hid).
    destruct (IH st1 Hrest) as (Ireq & Imir & Ikeys & Ind & Iid).
    split; [congruence|]. split; [|split; [|split]].
    + intros Hm. apply Imir. rewrite Hres.
      destruct (rs_context st1) as [req1 steps1]. cbn [request ctx_steps] in *.
      subst req1. now apply mirrored_set.
    + intros k. rewrite Ikeys, Hres, dict_mem_set. cbn [map In].
      rewrite orb_true_iff, String.eqb_eq. intuition congruence.
    + intros Hnd. apply Ind. rewrite Hres. now apply dict_set_nodup.
    + intros Hold. apply Iid. rewrite Hres. intros k r'.
      destruct (String.eqb_spec k (step_ident step)) as [->|Hne].
      * rewrite dict_get_set_eq. now intros [= <-].
      * rewrite dict_get_set_ne by exact Hne. apply Hold.
Qed.

(** X17.  One result per step.  When a run of a registered flow returns,
    its step results have exactly the ids of the flow's steps, each once
    (of two steps with the same id the later one overwrites the earlier),
    and the result filed under an id carries that id. *)
Theorem flow_results_cover_steps (self : FlowEngine) (getenv_mock : option string)
        (depth : nat) (fid : string) (req : dict) (mock_mode : option bool) (w : W)
        (flow : FlowDefinition) (res : FlowResult) (self' : FlowEngine) (w' : W) :
  get_flow (registry self) fid = Some flow ->
  execute_flow _execute _mock_execute self getenv_mock depth fid req mock_mode w =
    inr (res, self', w') ->
  (forall sid, dict_mem sid (fr_step_results res) = true <->
               In sid (map step_ident (steps flow)))
  /\ List.NoDup (dict_keys (fr_step_results res))
  /\ (forall sid r, dict_get sid (fr_step_results res) = Some r -> sr_step_id r = sid).
Proof.
  intros Hflow Hrun.
  destruct (execute_flow_registered _ _ _ _ _ _ _ _ _ _ _ _ _ Hflow Hrun)
    as (mock & st_end & Hloop & -> & _).
  destruct (run_steps_effect _ _ _ _ _ _ Hloop) as (_ & _ & Hkeys & Hnd & Hid).
  cbn [rs_step_results] in *. split; [|split].
  - intros sid. rewrite Hkeys. cbn [dict_mem]. intuition discriminate.
  - apply Hnd. constructor.
  - apply Hid. intros k r. discriminate.
Qed.

(** X18.  From a step's output to the response.  When a run of a registered
    flow returns, a response field mapped (once) to [${sid.output.f}], for
    a step id [sid] that is one path segment other than "request" and
    "steps" and a field name [f] without dot, holds the value of [f] in the
    output of the result filed under [sid]; it holds the mapping's default
    when there is no such result, when the output lacks [f], and when the
    value is null. *)
Theorem response_reads_step_output (self : FlowEngine) (getenv_mock : option string)
        (depth : nat) (fid : string) (req : dict) (mock_mode : option bool) (w : W)
        (flow : FlowDefinition) (res : FlowResult) (self' : FlowEngine) (w' : W)
        (m : ResponseMapping) (sid f : string) :
  get_flow (registry self) fid = Some flow ->
  execute_flow _execute _mock_execute self getenv_mock depth fid req mock_mode w =
    inr (res, self', w') ->
  List.NoDup (map rm_field (response flow)) -> In m (response flow) ->
  no_char "." sid = true -> sid <> "request" -> sid <> "steps" ->
  no_char "." f = true ->
  rm_reference m = Some (token (sid ++ ".output." ++ f)) ->
  let v := match dict_get sid (fr_step_results res) with
           | Some r => match dict_get f (sr_output r) with
                       | Some v => v
                       | None => VNone
                       end
           | None => VNone
           end in
  dict_get (rm_field m) (fr_response res) =
    Some (if is_none v then rm_default m else v).
Proof.
  intros Hflow Hrun Hnd Hin Hdot Hr Hs Hf Href v.
  destruct (execute_flow_registered _ _ _ _ _ _ _ _ _ _ _ _ _ Hflow Hrun)
    as (mock & st_end & Hloop & Hres & Hresp & _).
  destruct (run_steps_effect _ _ _ _ _ _ Hloop) as (_ & Hmir & _).
  assert (Hm : mirrored (rs_context st_end) (rs_step_results st_end))
    by (apply Hmir; intros k; reflexivity).
  rewrite Hresp, build_response_fold, fold_set_get. cbn [dict_get].
  rewrite (last_binding_unique rm_field (mapped_value (rs_context st_end)) _ _
                               Hnd Hin).
  unfold mapped_value. rewrite Href.
  change (truthy_str (token (sid ++ ".output." ++ f))) with true. cbv iota.
  rewrite (resolve_step_output _ _ sid f Hm Hdot Hr Hs Hf), <- Hres. fold v.
  destruct v; reflexivity.
Qed.








End Hooks.


Lemma flow_results_cover_steps_witness :
  match execute_flow (counting_execute (Raised "boom"))
                     (counting_mock_execute (Returned []))
                     sample_engine None 1 "test_flow" [("message", VStr "hello")]
                     None (0, 0) with
  | inr (res, _, _) => dict_mem "step1" (fr_step_results res) = true
  | inl _ => False
  end.
Proof.
  destruct (execute_flow _ _ _ _ _ _ _ _ _) as [e|[[res self'] w']] eqn:Hrun;
    [vm_compute in Hrun; discriminate|].
  apply (proj1 (flow_results_cover_steps
                  (counting_execute (Raised "boom"))
                  (counting_mock_execute (Returned []))
                  sample_engine None 1 "test_flow" [("message", VStr "hello")]
                  None (0, 0) sample_flow res self' w' eq_refl Hrun)).
  now left.
Defined.

Lemma response_reads_step_output_witness :
  match execute_flow (counting_execute (Raised "boom"))
                     (counting_mock_execute (Returned []))
                     sample_engine None 1 "test_flow" [("message", VStr "hello")]
                     None (0, 0) with
  | inr (res, _, _) => dict_get "result" (fr_response res) = Some (VStr "hello")
  | inl _ => False
  end.
Proof.
  destruct (execute_flow _ _ _ _ _ _ _ _ _) as [e|[[res self'] w']] eqn:Hrun;
    [vm_compute in Hrun; discriminate|].
  pose proof (response_reads_step_output
                (counting_execute (Raised "boom"))
                (counting_mock_execute (Returned []))
                sample_engine None 1 "test_flow" [("message", VStr "hello")]
                None (0, 0) sample_flow res self' w'
                {| rm_field := "result"; rm_reference := Some "${step1.output.answer}";
                   rm_default := VNone |} "step1" "answer" eq_refl Hrun) as H.
  vm_compute in Hrun. injection Hrun as <- _ _.
  apply H; try reflexivity; try discriminate.
  - repeat constructor. intros [].
  - now left.
Defined.




Lemma execute_counts (f g : BaseExecutor -> dict -> Outcome) (ex : BaseExecutor)
      (ins : dict) (sid : string) (mock_mode : bool) (w : nat * nat) :
  let w' := snd (execute (counted_execute f) (counted_mock_execute g) ex ins sid
                         mock_mode w) in
  (fst w <= fst w')%nat /\ (snd w <= snd w')%nat
  /\ (fst w' + snd w' <= S (fst w + snd w))%nat
  /\ (mock_mode = false -> snd w' = snd w).
Proof.
  unfold execute, dispatch, counted_execute, counted_mock_execute.
  destruct (truthy_opt_str _); [cbn; repeat split; lia|].
  destruct mock_mode; cbn [andb].
  - destruct (mock_enabled (manifest ex)).
    + destruct (g ex ins); cbn; repeat split; try lia; discriminate.
    + destruct (f ex ins); cbn; repeat split; lia.
  - destruct (f ex ins); cbn; repeat split; lia.
Qed.

Lemma run_step_counts (f g : BaseExecutor -> dict -> Outcome) (reg : SkillRegistry)
      (mock_mode : bool) (depth : nat) (st st' : RunState) (step : FlowStep) :
  run_step (counted_execute f) (counted_mock_execute g) reg mock_mode depth st step
  = inr st' ->
  (fst (rs_world st) <= fst (rs_world st'))%nat
  /\ (snd (rs_world st) <= snd (rs_world st'))%nat
  /\ (fst (rs_world st') + snd (rs_world st')
      <= S (fst (rs_world st) + snd (rs_world st)))%nat
  /\ (mock_mode = false -> snd (rs_world st') = snd (rs_world st)).
Proof.
  unfold run_step.
  destruct (match condition step with Some _ => _ | None => _ end).
  { intros [= <-]. cbn. repeat split; lia. }
  destruct (get_skill reg (step_skill step)) as [skill|].
  2:{ intros [= <-]. cbn. repeat split; lia. }
  destruct (_get_executor (rs_cache st) skill) as [e|[ex cache']]; [discriminate|].
  pose proof (execute_counts f g ex (_resolve_step_inputs step (rs_context st))
                             (step_ident step) mock_mode (rs_world st)) as Hc.
  destruct (execute _ _ ex _ _ _ _) as [r0 w'].
  destruct (passthrough_rewrite skill _ r0) as [e|r]; [discriminate|].
  intros [= <-]. exact Hc.
Qed.

Lemma run_steps_counts (f g : BaseExecutor -> dict -> Outcome) (reg : SkillRegistry)
      (mock_mode : bool) (depth : nat) (todo : list FlowStep) (st st' : RunState) :
  run_steps (counted_execute f) (counted_mock_execute g) reg mock_mode depth st todo
  = inr st' ->
  (fst (rs_world st) <= fst (rs_world st'))%nat
  /\ (snd (rs_world st) <= snd (rs_world st'))%nat
  /\ (fst (rs_world st') + snd (rs_world st')
      <= fst (rs_world st) + snd (rs_world st) + List.length todo)%nat
  /\ (mock_mode = false -> snd (rs_world st') = snd (rs_world st)).
Proof.
  revert st. induction todo as [|step rest IH]; intros st.
  - intros [= <-]. cbn. repeat split; lia.
  - cbn [run_steps List.length].
    destruct (run_step _ _ reg mock_mode depth st step) as [e|st1] eqn:E;
      [discriminate|].
    intros Hrest.
    destruct (run_step_counts _ _ _ _ _ _ _ _ E) as (A1 & A2 & A3 & A4).
    destruct (IH st1 Hrest) as (B1 & B2 & B3 & B4).
    repeat split; try lia.
    intros Hm. rewrite (B4 Hm). now apply A4.
Qed.

(** X22.  Calls of the hooks over a run, counted by hooks whose outcome may
    depend on the executor and the inputs.  A run that returns has called
    the hooks at most once per step of the flow, and not at all for an
    unknown flow id; with mock mode given as False, or not given while the
    environment variable APP_MOCK_MODE is unset, the mock hook is never
    called. *)
Theorem hook_calls_bounded (f g : BaseExecutor -> dict -> Outcome)
        (self : FlowEngine) (getenv_mock : option string) (depth : nat)
        (fid : string) (req : dict) (mock_mode : option bool) (a b a' b' : nat)
        (res : FlowResult) (self' : FlowEngine) :
  execute_flow (counted_execute f) (counted_mock_execute g) self getenv_mock depth
               fid req mock_mode (a, b) = inr (res, self', (a', b')) ->
  (a <= a')%nat /\ (b <= b')%nat
  /\ (a' + b' <= a + b + match get_flow (registry self) fid with
                         | Some flow => List.length (steps flow)
                         | None => 0
                         end)%nat
  /\ (mock_mode = Some false \/ (mock_mode = None /\ getenv_mock = None) -> b' = b).
Proof.
  unfold execute_flow.
  destruct (get_flow (registry self) fid) as [flow|].
  2:{ intros [= _ _ <- <-]. repeat split; lia. }
  destruct (run_steps _ _ _ _ _ _ _) as [e|st] eqn:Hloop; [discriminate|].
  intros [= _ _ Hw].
  destruct (run_steps_counts _ _ _ _ _ _ _ _ Hloop) as (A1 & A2 & A3 & A4).
  rewrite Hw in *. cbn [rs_world fst snd] in *.
  repeat split; try lia.
  intros Hmock. apply A4.
  destruct Hmock as [->|[-> ->]]; reflexivity.
Qed.

Lemma hook_calls_bounded_witness :
  match execute_flow (counted_execute (fun _ _ => Returned [("answer", VStr "hi")]))
                     (counted_mock_execute (fun _ _ => Returned []))
                     sample_engine None 1 "test_flow" [("message", VStr "hello")]
                     None (0, 0) with
  | inr (_, _, (a', b')) => (a' + b' <= 1)%nat /\ b' = 0
  | inl _ => False
  end.
Proof.
  destruct (execute_flow _ _ _ _ _ _ _ _ _) as [e|[[res self'] [a' b']]] eqn:Hrun;
    [vm_compute in Hrun; discriminate|].
  destruct (hook_calls_bounded
              (fun _ _ => Returned [("answer", VStr "hi")]) (fun _ _ => Returned [])
              sample_engine None 1 "test_flow" [("message", VStr "hello")] None
              0 0 a' b' res self' Hrun) as (_ & _ & H & Hb).
  split; [exact H|apply Hb; right; now split].
Defined.

End FlowFacts.

(** * The built-in location hint and the parsing of search results *)

Module BuiltinFacts.
Import Py PyFacts.

Lemma lower_char_idempotent (a : ascii) : lower_char (lower_char a) = lower_char a.
Proof. destruct a as [[] [] [] [] [] [] [] []]; reflexivity. Qed.

Lemma lower_idempotent (s : string) : lower (lower s) = lower s.
Proof.
  induction s as [|a s IH]; [reflexivity|].
  cbn [lower]. now rewrite lower_char_idempotent, IH.
Qed.

(** The loop returns the title of the first entry of the table that occurs
    in the text, and null when none does. *)
Lemma location_loop_spec (locs : list string) (q : string) :
  (location_loop locs q = [("location", VNone)]
   /\ forall loc, In loc locs -> contains loc q = false)
  \/ (exists before loc after,
         locs = (before ++ loc :: after)%list
         /\ location_loop locs q = [("location", VStr (title loc))]
         /\ contains loc q = true
         /\ forall l, In l before -> contains l q = false).
Proof.
  induction locs as [|loc rest IH]; [left; split; [reflexivity|intros ? []]|].
  cbn [location_loop]. destruct (contains loc q) eqn:E.
  - right. exists [], loc, rest.
    split; [reflexivity|]. split; [reflexivity|]. split; [exact E|].
    intros l Hl. destruct Hl.
  - destruct IH as [[Hnone Hall]|(before & l & after & -> & Hres & Hin & Hbefore)].
    + left. split; [exact Hnone|]. intros l [<-|Hl]; [exact E|now apply Hall].
    + right. exists (loc :: before), l, after.
      split; [reflexivity|]. split; [exact Hres|]. split; [exact Hin|].
      intros l' [<-|Hl']; [exact E|now apply Hbefore].
Qed.

Lemma supported_titles :
  Forall (fun loc => lower (title loc) = loc) SUPPORTED_LOCATIONS.
Proof. repeat constructor. Qed.

(** X23.  [extract_location_hint] returns a map with the one key "location".
    The value is null exactly when no supported location occurs in the
    lower-cased query.  Otherwise it is the title-cased name of the first
    entry of the table, in table order and not in the order of the query,
    that occurs in the lower-cased query as a substring; lower-cased again,
    the returned name is that entry. *)
Theorem extract_location_hint_spec (query_text : string) :
  exists v, extract_location_hint query_text = [("location", v)]
  /\ (v = VNone <->
      forall loc, In loc SUPPORTED_LOCATIONS -> contains loc (lower query_text) = false)
  /\ (v <> VNone ->
      exists before loc after,
        SUPPORTED_LOCATIONS = (before ++ loc :: after)%list
        /\ v = VStr (title loc) /\ lower (title loc) = loc
        /\ contains loc (lower query_text) = true
        /\ forall l, In l before -> contains l (lower query_text) = false).
Proof.
  unfold extract_location_hint.
  destruct (location_loop_spec SUPPORTED_LOCATIONS (lower query_text))
    as [[Hnone Hall]|(before & loc & after & Hsplit & Hres & Hin & Hbefore)].
  - exists VNone. split; [exact Hnone|]. split; [tauto|congruence].
  - exists (VStr (title loc)). split; [exact Hres|]. split.
    + split; [discriminate|]. intros Hall. exfalso.
      assert (Hloc : In loc SUPPORTED_LOCATIONS)
        by (rewrite Hsplit; apply in_or_app; right; now left).
      rewrite (Hall loc Hloc) in Hin. discriminate.
    + intros _. exists before, loc, after.
      split; [exact Hsplit|]. split; [reflexivity|]. split; [|split; assumption].
      assert (Hloc : In loc SUPPORTED_LOCATIONS)
        by (rewrite Hsplit; apply in_or_app; right; now left).
      exact (proj1 (List.Forall_forall _ _) supported_titles loc Hloc).
Qed.

Lemma extract_location_hint_spec_witness :
  extract_location_hint "Hotels near BOSTON, not Miami" = [("location", VStr "Miami")].
Proof.
  destruct (extract_location_hint_spec "Hotels near BOSTON, not Miami")
    as (v & Hres & _ & _).
  rewrite Hres. vm_compute in Hres. symmetry. exact Hres.
Defined.

(** X24.  The location hint does not depend on the case of the query: two
    queries with the same lower-cased text give the same hint, and so do a
    query and its lower-cased text. *)
Theorem location_hint_ignores_case (q1 q2 : string) :
  lower q1 = lower q2 ->
  extract_location_hint q1 = extract_location_hint q2
  /\ extract_location_hint (lower q1) = extract_location_hint q2.
Proof.
  intros H. unfold extract_location_hint.
  now rewrite lower_idempotent, H.
Qed.

Lemma location_hint_ignores_case_witness :
  extract_location_hint "LAS VEGAS strip" = extract_location_hint "Las Vegas Strip".
Proof.
  apply (location_hint_ignores_case "LAS VEGAS strip" "Las Vegas Strip").
  reflexivity.
Defined.

Lemma parse_loop_spec (l : list dict) (snippets links : list value) :
  fold_left parse_result l (snippets, links) =
  let kept := List.filter (fun r => truthy (get_default "snippet" (VStr EmptyString) r))
                          l in
  ((snippets ++ map (get_default "snippet" (VStr EmptyString)) kept)%list,
   (links ++ map link_of kept)%list).
Proof.
  revert snippets links. induction l as [|r l IH]; intros snippets links.
  - cbn. now rewrite !List.app_nil_r.
  - cbn [fold_left List.filter]. unfold parse_result at 2. cbn [fst snd].
    destruct (truthy (get_default "snippet" (VStr EmptyString) r)).
    + rewrite IH. cbn [map]. now rewrite <- !List.app_assoc.
    + apply IH.
Qed.

Lemma slice_to_length {A : Type} (n : Z) (l : list A) :
  (0 <= n)%Z -> (List.length (slice_to n l) <= Z.to_nat n)%nat.
Proof.
  intros H. unfold slice_to.
  destruct (Z.leb_spec 0 n); [|lia].
  rewrite List.length_firstn. lia.
Qed.

Lemma filter_length_le {A : Type} (p : A -> bool) (l : list A) :
  (List.length (List.filter p l) <= List.length l)%nat.
Proof.
  induction l as [|x l IH]; [reflexivity|].
  cbn [List.filter]. destruct (p x); cbn [List.length]; lia.
Qed.

(** X25.  [_parse_organic_results] keeps, of the results up to the limit
    and in their order, those whose snippet is truthy.  The snippets and the
    links it returns come from the same results, one link per snippet and
    with that snippet in it; every snippet is truthy; the status is "ok"
    exactly when a snippet was kept and "no_results" otherwise; with a
    limit that is not negative no more snippets than the limit come back. *)
Theorem parse_organic_results_spec (results : list dict) (num_results : Z) :
  let snippet_of := get_default "snippet" (VStr EmptyString) in
  let kept := List.filter (fun r => truthy (snippet_of r))
                          (slice_to num_results results) in
  _parse_organic_results results num_results =
    [("snippets", VList (map snippet_of kept)); ("links", VList (map link_of kept));
     ("search_status", VStr (match kept with [] => "no_results" | _ :: _ => "ok" end))]
  /\ List.length (map snippet_of kept) = List.length (map link_of kept)
  /\ Forall (fun r => truthy (snippet_of r) = true
                      /\ exists t u, link_of r = VDict [("title", t); ("url", u);
                                                        ("snippet", snippet_of r)]) kept
  /\ ((0 <= num_results)%Z ->
      (List.length (map snippet_of kept) <= Z.to_nat num_results)%nat).
Proof.
  intros snippet_of kept. split; [|split; [|split]].
  - unfold _parse_organic_results. rewrite parse_loop_spec. cbv zeta.
    cbn [fst snd app]. fold snippet_of. fold kept.
    destruct kept; reflexivity.
  - now rewrite !List.length_map.
  - apply List.Forall_forall. intros r Hr.
    apply List.filter_In in Hr as [_ Hr]. split; [exact Hr|].
    eexists _, _. reflexivity.
  - intros Hn. rewrite List.length_map.
    pose proof (filter_length_le (fun r => truthy (snippet_of r))
                                 (slice_to num_results results)).
    pose proof (slice_to_length num_results results Hn). unfold kept. lia.
Qed.

Lemma parse_organic_results_spec_witness :
  dict_get "search_status"
           (_parse_organic_results
              [[("snippet", VStr EmptyString)]; [("snippet", VStr "a room")]] 1)
  = Some (VStr "no_results").
Proof.
  destruct (parse_organic_results_spec
              [[("snippet", VStr EmptyString)]; [("snippet", VStr "a room")]] 1)
    as (Hres & _).
  rewrite Hres. reflexivity.
Defined.

End BuiltinFacts.
